(** * ff-three: the render view's event routing and the camera controller

    A shallow embedding of [RenderView] (viewport registry, hit test, 3D pick,
    sticky active state, dispatch to the render system and the viewport) and of
    [CameraController] (orbit/offset update with limits).

    JavaScript numbers are IEEE-754 binary64 values: they are modelled by the
    primitive floats, so NaN and the infinities behave as in the program.
    Objects that are shared by reference (viewports) live in a store and are
    named by their address. *)

From Stdlib Require Import Floats ZArith Bool List String Lia PeanoNat.
Import ListNotations.

Set Warnings "-inexact-float".

Set Implicit Arguments.

(** ** JavaScript basics shared by both classes *)

(** What a [throw] carries: [new Error(message)] written in the source, or the
    [TypeError] the runtime raises when a property of [undefined]/[null] is
    read or written. *)
Inductive exn : Type :=
| Error (message : string)
| TypeError (message : string).

(** A method call either returns a value or throws; in both cases the object
    state reached so far is kept (JavaScript has no rollback). *)
Inductive result (S A : Type) : Type :=
| Ok (a : A) (s : S)
| Throw (e : exn) (s : S).

Arguments Ok {S A} a s.
Arguments Throw {S A} e s.

Definition M (S A : Type) : Type := S -> result S A.

Definition ret {S A : Type} (a : A) : M S A := fun s => Ok a s.

Definition bind {S A B : Type} (c : M S A) (k : A -> M S B) : M S B :=
  fun s => match c s with
           | Ok a s' => k a s'
           | Throw e s' => Throw e s'
           end.

Definition throw {S A : Type} (e : exn) : M S A := fun s => Throw e s.

Definition stateOf {S A : Type} (r : result S A) : S :=
  match r with
  | Ok _ s => s
  | Throw _ s => s
  end.

Declare Scope js_scope.
Delimit Scope js_scope with js.
Notation "x <- c ;; k" := (bind c (fun x => k))
  (at level 100, c at next level, right associativity) : js_scope.
Notation "c ;; k" := (bind c (fun _ => k))
  (at level 100, right associativity) : js_scope.

(** Addresses of heap objects; [===] on objects compares addresses. *)
Definition ref : Type := nat.

(** [Array.prototype.indexOf]: the first position holding the element, or -1. *)
Fixpoint indexOfFrom (l : list ref) (x : ref) (i : Z) : Z :=
  match l with
  | [] => (-1)%Z
  | y :: rest => if Nat.eqb y x then i else indexOfFrom rest x (i + 1)%Z
  end.

Definition indexOf (l : list ref) (x : ref) : Z := indexOfFrom l x 0%Z.

(** [Array.prototype.slice(start, end)]: a new array; the receiver is not
    modified. A negative position counts from the end, and both positions are
    clamped to the array. *)
Definition relativeIndex (len k : Z) : Z :=
  if (k <? 0)%Z then Z.max (len + k) 0 else Z.min k len.

Definition slice {A : Type} (l : list A) (start finish : Z) : list A :=
  let len := Z.of_nat (List.length l) in
  let k := relativeIndex len start in
  let final := relativeIndex len finish in
  firstn (Z.to_nat (final - k)) (skipn (Z.to_nat k) l).

(** Array element read [a[index]]: [undefined] outside the array. *)
Definition elementAt {A : Type} (l : list A) (index : Z) : option A :=
  if (index <? 0)%Z then None else nth_error l (Z.to_nat index).

Module RenderView.

(** *** Collaborators

    [Viewport], [RenderSystem] and [Picker] are imported by the view; only the
    members the view uses are modelled. *)

(** The [Viewport] class: its geometry is private to it, the view only calls
    the methods below. *)
Class ViewportClass : Type := {
  Geometry : Type;
  (** fields of a viewport right after [new Viewport()] *)
  newEnabled : bool;
  newGeometry : Geometry;
  (** [viewport.isPointInside(x, y)] *)
  isPointInside : Geometry -> float -> float -> bool;
  (** [viewport.getDeviceX(localX)], [viewport.getDeviceY(localY)] *)
  getDeviceX : Geometry -> float -> float;
  getDeviceY : Geometry -> float -> float;
  (** [viewport.setCanvasSize(width, height)] *)
  setCanvasSize : float -> float -> Geometry -> Geometry
}.

Definition Scene : Type := nat.
Definition Camera : Type := nat.
Definition Node : Type := nat.

(** [Component] of the scene graph: the view reads [type] and [node]. *)
Record Component : Type := {
  type : string;
  node : option Node
}.

(** [THREE.Object3D]: the view reads [userData["component"]], which is
    [undefined] for an object no component has registered. *)
Record Object3D : Type := {
  id : nat;
  userData_component : option Component
}.

Inductive EPointerEventType : Type := Down | Move | Up | Hover.
Inductive ETriggerEventType : Type := Wheel | DblClick | ContextMenu.

Record IManipPointerEvent : Type := {
  p_type : EPointerEventType;
  p_isPrimary : bool;
  p_localX : float;
  p_localY : float;
  p_movementX : float;
  p_movementY : float
}.

Record IManipTriggerEvent : Type := {
  t_type : ETriggerEventType;
  t_wheel : float;
  t_localX : float;
  t_localY : float
}.

(** What [routeEvent] reads of either kind of event. *)
Class IManipBaseEvent (E : Type) : Type := {
  localX : E -> float;
  localY : E -> float
}.

#[export] Instance pointerBase : IManipBaseEvent IManipPointerEvent :=
  {| localX := p_localX; localY := p_localY |}.
#[export] Instance triggerBase : IManipBaseEvent IManipTriggerEvent :=
  {| localX := t_localX; localY := t_localY |}.

(** [IBaseEvent]: the input event augmented by [routeEvent]. The [view] member
    always names the one view modelled here and is left out. *)
Record IBaseEvent (E : Type) : Type := {
  event : E;
  viewport : ref;
  deviceX : float;
  deviceY : float;
  object3D : option Object3D;
  component : option Component;
  ev_node : option Node;
  stopPropagation : bool
}.

Definition IPointerEvent : Type := IBaseEvent IManipPointerEvent.
Definition ITriggerEvent : Type := IBaseEvent IManipTriggerEvent.

(** The members of the event that are set when the picker is called. *)
Record IViewportBaseEvent : Type := {
  vb_localX : float;
  vb_localY : float;
  vb_viewport : ref;
  vb_deviceX : float;
  vb_deviceY : float
}.

(** [RenderSystem]: the two handlers are given by the value they leave in the
    event's [stopPropagation] member. *)
Record RenderSystem : Type := {
  activeScene : option Scene;
  activeCamera : option Camera;
  getObjectByIndex : Z -> option Object3D;
  systemOnPointer : IPointerEvent -> bool;
  systemOnTrigger : ITriggerEvent -> bool
}.

Record Picker : Type := {
  pickIndex : Scene -> Camera -> IViewportBaseEvent -> Z
}.

Record Canvas : Type := {
  width : float;
  height : float;
  clientWidth : float;
  clientHeight : float
}.

Record IRenderContext : Type := {
  ctx_viewport : option ref;
  ctx_scene : option Scene;
  ctx_camera : option Camera
}.

(** Calls into the collaborators and the console, in the order they happen. *)
Inductive Effect : Type :=
| ConsoleWarn (message : string)
| ConsoleLogBackground
| ConsoleLogComponent (index : Z) (componentType : string)
| RendererSetSize (w h : float)
| RendererClear
| RendererRender (scene : Scene) (camera : Camera) (vp : ref)
| ViewportApply (vp : ref)
| SystemAttachView
| SystemDetachView
| SystemPreRender (context : IRenderContext)
| SystemPostRender (context : IRenderContext)
| SystemPointer (e : IPointerEvent)
| ViewportPointer (vp : ref) (e : IPointerEvent)
| SystemTrigger (e : ITriggerEvent)
| ViewportTrigger (vp : ref) (e : ITriggerEvent).

Section View.

Context {VC : ViewportClass}.

Record Viewport : Type := {
  enabled : bool;
  geometry : Geometry
}.

(** The view, the store of viewport objects it shares with its callers, and
    the trace of effects. *)
Record State : Type := {
  system : option RenderSystem;
  picker : Picker;
  viewports : list ref;
  activeViewport : option ref;
  activeObject3D : option Object3D;
  activeComponent : option Component;
  shouldResize : bool;
  canvas : Canvas;
  context : IRenderContext;
  heap : ref -> Viewport;
  nextRef : ref;
  effects : list Effect
}.

Definition setViewports (l : list ref) (s : State) : State :=
  {| system := system s; picker := picker s; viewports := l;
     activeViewport := activeViewport s; activeObject3D := activeObject3D s;
     activeComponent := activeComponent s; shouldResize := shouldResize s;
     canvas := canvas s; context := context s; heap := heap s;
     nextRef := nextRef s; effects := effects s |}.

Definition setActive (v : option ref) (o : option Object3D) (c : option Component)
  (s : State) : State :=
  {| system := system s; picker := picker s; viewports := viewports s;
     activeViewport := v; activeObject3D := o;
     activeComponent := c; shouldResize := shouldResize s;
     canvas := canvas s; context := context s; heap := heap s;
     nextRef := nextRef s; effects := effects s |}.

Definition setShouldResize (b : bool) (s : State) : State :=
  {| system := system s; picker := picker s; viewports := viewports s;
     activeViewport := activeViewport s; activeObject3D := activeObject3D s;
     activeComponent := activeComponent s; shouldResize := b;
     canvas := canvas s; context := context s; heap := heap s;
     nextRef := nextRef s; effects := effects s |}.

Definition setCanvas (c : Canvas) (s : State) : State :=
  {| system := system s; picker := picker s; viewports := viewports s;
     activeViewport := activeViewport s; activeObject3D := activeObject3D s;
     activeComponent := activeComponent s; shouldResize := shouldResize s;
     canvas := c; context := context s; heap := heap s;
     nextRef := nextRef s; effects := effects s |}.

Definition setContext (c : IRenderContext) (s : State) : State :=
  {| system := system s; picker := picker s; viewports := viewports s;
     activeViewport := activeViewport s; activeObject3D := activeObject3D s;
     activeComponent := activeComponent s; shouldResize := shouldResize s;
     canvas := canvas s; context := c; heap := heap s;
     nextRef := nextRef s; effects := effects s |}.

Definition setHeap (h : ref -> Viewport) (n : ref) (s : State) : State :=
  {| system := system s; picker := picker s; viewports := viewports s;
     activeViewport := activeViewport s; activeObject3D := activeObject3D s;
     activeComponent := activeComponent s; shouldResize := shouldResize s;
     canvas := canvas s; context := context s; heap := h;
     nextRef := n; effects := effects s |}.

Definition setEffects (l : list Effect) (s : State) : State :=
  {| system := system s; picker := picker s; viewports := viewports s;
     activeViewport := activeViewport s; activeObject3D := activeObject3D s;
     activeComponent := activeComponent s; shouldResize := shouldResize s;
     canvas := canvas s; context := context s; heap := heap s;
     nextRef := nextRef s; effects := l |}.

Definition emit (e : Effect) : M State unit :=
  fun s => Ok tt (setEffects (effects s ++ [e]) s).

Definition store (r : ref) (v : Viewport) (h : ref -> Viewport) : ref -> Viewport :=
  fun r' => if Nat.eqb r' r then v else h r'.

Definition get : M State State := fun s => Ok s s.

Definition modify (f : State -> State) : M State unit := fun s => Ok tt (f s).

(** [this.system.member]: reading a member of a missing system object raises. *)
Definition theSystem : M State RenderSystem :=
  fun s => match system s with
           | Some sys => Ok sys s
           | None => Throw (TypeError "cannot read properties of null") s
           end.

(** [this.viewports.forEach(viewport => viewport.setCanvasSize(width, height))] *)
Definition resizeViewports (w h : float) (vps : list ref) (hp : ref -> Viewport)
  : ref -> Viewport :=
  fold_left
    (fun hp' r =>
       store r {| enabled := enabled (hp' r);
                  geometry := setCanvasSize w h (geometry (hp' r)) |} hp')
    vps hp.

Definition attach : M State unit :=
  (s <- get ;;
   let w := width (canvas s) in
   let h := height (canvas s) in
   modify (fun s => setHeap (resizeViewports w h (viewports s) (heap s)) (nextRef s) s) ;;
   emit (RendererSetSize w h) ;;
   _ <- theSystem ;;
   emit SystemAttachView)%js.

Definition detach : M State unit :=
  (_ <- theSystem ;;
   emit SystemDetachView)%js.

(** The loop of [render] over the viewports, in registration order. *)
Fixpoint renderViewports (scene : Scene) (camera : Camera) (vps : list ref)
  : M State unit :=
  match vps with
  | [] => ret tt
  | vp :: rest =>
      (s <- get ;;
       (if enabled (heap s vp) then
          let ctx := {| ctx_viewport := Some vp;
                        ctx_scene := ctx_scene (context s);
                        ctx_camera := ctx_camera (context s) |} in
          modify (setContext ctx) ;;
          emit (SystemPreRender ctx) ;;
          emit (ViewportApply vp) ;;
          emit (RendererRender scene camera vp) ;;
          emit (SystemPostRender ctx)
        else ret tt) ;;
       renderViewports scene camera rest)%js
  end.

Definition render : M State unit :=
  (sys <- theSystem ;;
   match activeScene sys, activeCamera sys with
   | Some scene, Some camera =>
       s <- get ;;
       (if shouldResize s then
          let w := clientWidth (canvas s) in
          let h := clientHeight (canvas s) in
          modify (setShouldResize false) ;;
          modify (setCanvas {| width := w; height := h;
                               clientWidth := w; clientHeight := h |}) ;;
          modify (fun s => setHeap (resizeViewports w h (viewports s) (heap s))
                                   (nextRef s) s) ;;
          emit (RendererSetSize w h)
        else ret tt) ;;
       modify (fun s => setContext {| ctx_viewport := ctx_viewport (context s);
                                      ctx_scene := Some scene;
                                      ctx_camera := Some camera |} s) ;;
       emit RendererClear ;;
       s <- get ;;
       renderViewports scene camera (viewports s)
   | _, _ => emit (ConsoleWarn "scene and/or camera missing")
   end)%js.

Definition resize : M State unit := modify (setShouldResize true).

(** [new Viewport()]: a fresh object in the store. *)
Definition newViewport : M State ref :=
  fun s =>
    let r := nextRef s in
    Ok r (setHeap (store r {| enabled := newEnabled; geometry := newGeometry |} (heap s))
                  (S r) s).

Definition addViewport : M State ref :=
  (viewport <- newViewport ;;
   modify (fun s => setViewports (viewports s ++ [viewport]) s) ;;
   ret viewport)%js.

Fixpoint addViewportsLoop (n : nat) : M State unit :=
  match n with
  | O => ret tt
  | S n' =>
      (viewport <- newViewport ;;
       modify (fun s => setViewports (viewports s ++ [viewport]) s) ;;
       addViewportsLoop n')%js
  end.

(** [for (let i = 0; i < count; ++i)]: no iteration for a count below 1. *)
Definition addViewports (count : Z) : M State unit :=
  addViewportsLoop (Z.to_nat count).

Definition removeViewport (viewport : ref) : M State unit :=
  fun s =>
    let index := indexOf (viewports s) viewport in
    if (index <? 0)%Z then Throw (Error "viewport not found") s
    else
      (* the array returned by [slice] is dropped *)
      let _ := slice (viewports s) index 1 in
      Ok tt s.

Definition enableViewport (index : Z) (value : bool) : M State unit :=
  fun s =>
    match elementAt (viewports s) index with
    | Some r =>
        Ok tt (setHeap (store r {| enabled := value; geometry := geometry (heap s r) |}
                              (heap s))
                       (nextRef s) s)
    | None => Throw (TypeError "cannot set properties of undefined") s
    end.

Definition getViewportCount : M State Z :=
  fun s => Ok (Z.of_nat (List.length (viewports s))) s.

(** The hit test of [routeEvent]: the loop over the viewports with its
    [break]. *)
Fixpoint hitTest (hp : ref -> Viewport) (x y : float) (vps : list ref) : option ref :=
  match vps with
  | [] => None
  | vp :: rest =>
      if enabled (hp vp) && isPointInside (geometry (hp vp)) x y then Some vp
      else hitTest hp x y rest
  end.

(** The 3D pick of [routeEvent]: the new values of [object3D] and
    [component]. Reading [component.type] for the log line raises when the
    picked object has no component in its user data. *)
Definition pick (viewEvent : IViewportBaseEvent)
  : M State (option Object3D * option Component) :=
  (sys <- theSystem ;;
   s <- get ;;
   match activeScene sys, activeCamera sys with
   | Some scene, Some camera =>
       let index := pickIndex (picker s) scene camera viewEvent in
       if (index =? 0)%Z then
         emit ConsoleLogBackground ;;
         ret (None, None)
       else
         match getObjectByIndex sys index with
         | Some obj =>
             match userData_component obj with
             | Some c =>
                 emit (ConsoleLogComponent index (type c)) ;;
                 ret (Some obj, Some c)
             | None => throw (TypeError "cannot read properties of undefined")
             end
         | None => ret (None, None)
         end
   | _, _ => ret (None, None)
   end)%js.

(** The viewport [routeEvent] goes on with: the active one, or with
    [doHitTest] the one the hit test finds ([None] is JavaScript's [null]). *)
Definition resolveViewport (s : State) (x y : float) (doHitTest : bool) : option ref :=
  if doHitTest then hitTest (heap s) x y (viewports s) else activeViewport s.

(** The members [routeEvent] has written to the event when it calls the
    picker. *)
Definition augment (s : State) (x y : float) (viewport : ref) : IViewportBaseEvent :=
  {| vb_localX := x; vb_localY := y;
     vb_viewport := viewport;
     vb_deviceX := getDeviceX (geometry (heap s viewport)) x;
     vb_deviceY := getDeviceY (geometry (heap s viewport)) y |}.

Definition routeEvent {E : Type} `{IManipBaseEvent E}
  (ev : E) (doHitTest doPick : bool) : M State (option (IBaseEvent E)) :=
  (s <- get ;;
   let object3D := activeObject3D s in
   let component := activeComponent s in
   match resolveViewport s (localX ev) (localY ev) doHitTest with
   | None => ret None
   | Some viewport =>
       let viewEvent := augment s (localX ev) (localY ev) viewport in
       picked <- (if doPick then pick viewEvent else ret (object3D, component)) ;;
       let object3D := fst picked in
       let component := snd picked in
       modify (setActive (Some viewport) object3D component) ;;
       ret (Some {| event := ev; viewport := viewport;
                    deviceX := vb_deviceX viewEvent; deviceY := vb_deviceY viewEvent;
                    object3D := object3D; component := component;
                    ev_node := match component with
                               | Some c => node c
                               | None => None
                               end;
                    stopPropagation := false |})
   end)%js.

Definition isType (a b : EPointerEventType) : bool :=
  match a, b with
  | Down, Down | Move, Move | Up, Up | Hover, Hover => true
  | _, _ => false
  end.

(** The flags [onPointer] passes to [routeEvent]: [(doHitTest, doPick)]. *)
Definition pointerFlags (ev : IManipPointerEvent) : bool * bool :=
  if isType (p_type ev) Hover then (true, false)
  else if p_isPrimary ev && isType (p_type ev) Down then (true, true)
  else (false, false).

Definition onPointer (ev : IManipPointerEvent) : M State bool :=
  fun s =>
    match system s with
    | None => Ok false s
    | Some sys =>
        (viewEvent <- routeEvent ev (fst (pointerFlags ev)) (snd (pointerFlags ev)) ;;
         match viewEvent with
         | Some viewEvent =>
             emit (SystemPointer viewEvent) ;;
             (if negb (systemOnPointer sys viewEvent) then
                emit (ViewportPointer (viewport viewEvent) viewEvent)
              else ret tt) ;;
             ret true
         | None => ret false
         end)%js s
    end.

Definition onTrigger (ev : IManipTriggerEvent) : M State bool :=
  fun s =>
    match system s with
    | None => Ok false s
    | Some sys =>
        (viewEvent <- routeEvent ev true true ;;
         match viewEvent with
         | Some viewEvent =>
             emit (SystemTrigger viewEvent) ;;
             (if negb (systemOnTrigger sys viewEvent) then
                emit (ViewportTrigger (viewport viewEvent) viewEvent)
              else ret tt) ;;
             ret true
         | None => ret false
         end)%js s
    end.

(** The constructor: no viewport registered, nothing active, an empty render
    context. The picker it creates and the store the view lives in are given. *)
Definition create (sys : option RenderSystem) (pk : Picker) (cv : Canvas)
  (hp : ref -> Viewport) (next : ref) : State :=
  {| system := sys;
     picker := pk;
     viewports := [];
     activeViewport := None;
     activeObject3D := None;
     activeComponent := None;
     shouldResize := false;
     canvas := cv;
     context := {| ctx_viewport := None; ctx_scene := None; ctx_camera := None |};
     heap := hp;
     nextRef := next;
     effects := [] |}.

(** The view as its callers see it: a call of one of the public methods. *)
Inductive Operation : Type :=
| OpAttach
| OpDetach
| OpRender
| OpResize
| OpAddViewport
| OpAddViewports (count : Z)
| OpRemoveViewport (viewport : ref)
| OpEnableViewport (index : Z) (value : bool)
| OpGetViewportCount
| OpOnPointer (ev : IManipPointerEvent)
| OpOnTrigger (ev : IManipTriggerEvent).

Definition discard {A : Type} (c : M State A) : M State unit :=
  (_ <- c ;; ret tt)%js.

Definition perform (op : Operation) : M State unit :=
  match op with
  | OpAttach => attach
  | OpDetach => detach
  | OpRender => render
  | OpResize => resize
  | OpAddViewport => discard addViewport
  | OpAddViewports count => addViewports count
  | OpRemoveViewport viewport => removeViewport viewport
  | OpEnableViewport index value => enableViewport index value
  | OpGetViewportCount => discard getViewportCount
  | OpOnPointer ev => discard (onPointer ev)
  | OpOnTrigger ev => discard (onTrigger ev)
  end.

Definition isInput (op : Operation) : bool :=
  match op with
  | OpOnPointer _ | OpOnTrigger _ => true
  | _ => false
  end.

(** A run of method calls; a call that throws leaves the state it reached. *)
Fixpoint performAll (ops : list Operation) (s : State) : State :=
  match ops with
  | [] => s
  | op :: rest => performAll rest (stateOf (perform op s))
  end.

(** What the input layer sends; it goes on with the next event when a
    handler has thrown. *)
Inductive Input : Type :=
| PointerInput (ev : IManipPointerEvent)
| TriggerInput (ev : IManipTriggerEvent).

Definition dispatch (i : Input) : M State bool :=
  match i with
  | PointerInput ev => onPointer ev
  | TriggerInput ev => onTrigger ev
  end.

Fixpoint processAll (inputs : list Input) (s : State) : State :=
  match inputs with
  | [] => s
  | i :: rest => processAll rest (stateOf (dispatch i s))
  end.

(** The viewport a delivery of a routed event names, if the effect is one. *)
Definition routedViewport (e : Effect) : option ref :=
  match e with
  | SystemPointer ve => Some (viewport ve)
  | ViewportPointer _ ve => Some (viewport ve)
  | SystemTrigger ve => Some (viewport ve)
  | ViewportTrigger _ ve => Some (viewport ve)
  | _ => None
  end.

(** The pointer events handed to the render system, oldest first. *)
Fixpoint systemPointerEvents (l : list Effect) : list IPointerEvent :=
  match l with
  | [] => []
  | SystemPointer ve :: rest => ve :: systemPointerEvents rest
  | _ :: rest => systemPointerEvents rest
  end.

(** *** Notions the properties are stated with *)

(** The viewport is enabled and its bounds contain the point. *)
Definition contains (s : State) (x y : float) (vp : ref) : bool :=
  enabled (heap s vp) && isPointInside (geometry (heap s vp)) x y.

(** [vp] is the first registered viewport, in registration order, that is
    enabled and contains the point. *)
Definition firstContaining (s : State) (x y : float) (vp : ref) : Prop :=
  exists i : nat,
    nth_error (viewports s) i = Some vp /\
    contains s x y vp = true /\
    forall (j : nat) (vp' : ref),
      j < i -> nth_error (viewports s) j = Some vp' -> contains s x y vp' = false.

Definition noneContaining (s : State) (x y : float) : Prop :=
  forall vp : ref, In vp (viewports s) -> contains s x y vp = false.

(** The viewport is registered with the view and enabled. *)
Definition registeredEnabled (s : State) (vp : ref) : Prop :=
  In vp (viewports s) /\ enabled (heap s vp) = true.

(** The active viewport, when there is one, is registered and enabled. *)
Definition viewInv (s : State) : Prop :=
  match activeViewport s with
  | Some vp => registeredEnabled s vp
  | None => True
  end.

(** A delivery of a routed event names a registered, enabled viewport. *)
Definition routedOk (s : State) (e : Effect) : Prop :=
  match routedViewport e with
  | Some vp => registeredEnabled s vp
  | None => True
  end.

Definition inputHitTest (i : Input) : bool :=
  match i with
  | PointerInput ev => fst (pointerFlags ev)
  | TriggerInput _ => true
  end.

Definition inputX (i : Input) : float :=
  match i with
  | PointerInput ev => p_localX ev
  | TriggerInput ev => t_localX ev
  end.

Definition inputY (i : Input) : float :=
  match i with
  | PointerInput ev => p_localY ev
  | TriggerInput ev => t_localY ev
  end.

(** The deliveries of a routed event: the render system first, then the
    viewport of the event unless the render system has set
    [stopPropagation]. *)
Definition pointerDeliveries (sys : RenderSystem) (ve : IPointerEvent) : list Effect :=
  SystemPointer ve ::
  (if systemOnPointer sys ve then [] else [ViewportPointer (viewport ve) ve]).

(** A computation that does not write the active viewport. *)
Definition keepsActive {A : Type} (c : M State A) : Prop :=
  forall s : State, activeViewport (stateOf (c s)) = activeViewport s.

(** A computation that raises nothing but the runtime's [TypeError]. *)
Definition onlyTypeErrors {A : Type} (c : M State A) : Prop :=
  forall (s s' : State) (e : exn), c s = Throw e s' -> exists m : string, e = TypeError m.

(** [routeEvent] goes on with the viewport [vp]: the first containing one with
    [doHitTest], the active one without. *)
Definition resolves (s : State) (x y : float) (doHitTest : bool) (vp : ref) : Prop :=
  if doHitTest then firstContaining s x y vp else activeViewport s = Some vp.

(** The pick of [routeEvent] for the viewport [vp] cannot be completed: a
    scene or a camera is missing, or the picker's index is not 0 and the
    render system knows no object for it. *)
Definition pickFails (s : State) (sys : RenderSystem) (x y : float) (vp : ref) : Prop :=
  activeScene sys = None \/
  activeCamera sys = None \/
  exists (scene : Scene) (camera : Camera),
    activeScene sys = Some scene /\ activeCamera sys = Some camera /\
    pickIndex (picker s) scene camera (augment s x y vp) <> 0%Z /\
    getObjectByIndex sys (pickIndex (picker s) scene camera (augment s x y vp)) = None.

(** The picker answers 0 for the viewport [vp]. *)
Definition pickIsBackground (s : State) (sys : RenderSystem) (x y : float) (vp : ref)
  : Prop :=
  exists (scene : Scene) (camera : Camera),
    activeScene sys = Some scene /\ activeCamera sys = Some camera /\
    pickIndex (picker s) scene camera (augment s x y vp) = 0%Z.

(** *** Notions for the methods around the routing *)

(** The viewport object [new Viewport()] yields. *)
Definition freshViewport : Viewport :=
  {| enabled := newEnabled; geometry := newGeometry |}.

(** What [render] does for one enabled viewport: the render system before
    and after, with the context naming the viewport, around the viewport's
    own set-up and the renderer's draw. The draw stands for
    [renderer.render(scene, viewport.updateCamera(camera))]; the call of
    [updateCamera] has no entry of its own in the trace. *)
Definition renderSteps (scene : Scene) (camera : Camera) (vp : ref) : list Effect :=
  let ctx := {| ctx_viewport := Some vp;
                ctx_scene := Some scene;
                ctx_camera := Some camera |} in
  [SystemPreRender ctx; ViewportApply vp; RendererRender scene camera vp;
   SystemPostRender ctx].

(** The steps for all enabled viewports of the registry, in its order. *)
Definition renderTrace (s : State) (scene : Scene) (camera : Camera) : list Effect :=
  flat_map (fun vp => if enabled (heap s vp) then renderSteps scene camera vp else [])
           (viewports s).

(** Every registered viewport was allocated in the store. *)
Definition allocated (s : State) : Prop :=
  forall r : ref, In r (viewports s) -> r < nextRef s.

(** The registry is well formed: allocated viewports, each registered once. *)
Definition registryOk (s : State) : Prop :=
  allocated s /\ NoDup (viewports s).

(** [l1] is an initial segment of [l2]. *)
Definition prefixOf (l1 l2 : list ref) : Prop :=
  exists more : list ref, l2 = l1 ++ more.

(** A computation that leaves the projection [f] of the state as it was. *)
Definition keeps {X A : Type} (f : State -> X) (c : M State A) : Prop :=
  forall s : State, f (stateOf (c s)) = f s.

(** The registry as the store sees it: the list and the allocation mark. *)
Definition registry (s : State) : list ref * ref := (viewports s, nextRef s).

(** The picker answers an index other than 0 for the viewport [vp], and the
    render system has the object [obj] for it. *)
Definition pickFinds (s : State) (sys : RenderSystem) (x y : float) (vp : ref)
  (index : Z) (obj : Object3D) : Prop :=
  exists (scene : Scene) (camera : Camera),
    activeScene sys = Some scene /\ activeCamera sys = Some camera /\
    pickIndex (picker s) scene camera (augment s x y vp) = index /\
    index <> 0%Z /\
    getObjectByIndex sys index = Some obj.

(** A pointer event that [onPointer] routes without hit test and without
    pick: neither a hover nor a primary pointer-down. *)
Definition followsGesture (ev : IManipPointerEvent) : bool :=
  negb (isType (p_type ev) Hover) && negb (p_isPrimary ev && isType (p_type ev) Down).

(** The routed event for [ev] that carries the active selection of [s] to the
    viewport [vp]. *)
Definition carried (s : State) (vp : ref) (ev : IManipPointerEvent) : IPointerEvent :=
  {| event := ev;
     viewport := vp;
     deviceX := getDeviceX (geometry (heap s vp)) (p_localX ev);
     deviceY := getDeviceY (geometry (heap s vp)) (p_localY ev);
     object3D := activeObject3D s;
     component := activeComponent s;
     ev_node := match activeComponent s with
                | Some c => node c
                | None => None
                end;
     stopPropagation := false |}.

(** The fields of the view that rendering and resizing do not write. *)
Definition selection (s : State) : option ref * option Object3D * option Component :=
  (activeViewport s, activeObject3D s, activeComponent s).

(** *** Notions for runs that mix the events with the other methods *)







(** From [s] to [s'] the trace has grown by effects that deliver no routed
    event, and the active viewport, the registry and the enabled flags are
    the same. *)
Definition grows (s s' : State) : Prop :=
  (exists new : list Effect,
      effects s' = effects s ++ new /\
      Forall (fun e => routedViewport e = None) new) /\
  activeViewport s' = activeViewport s /\
  viewports s' = viewports s /\
  nextRef s' = nextRef s /\
  forall r : ref, enabled (heap s' r) = enabled (heap s r).

(** A computation that does no more than that, whether it returns or throws. *)
Definition calm {A : Type} (c : M State A) : Prop :=
  forall s : State, grows s (stateOf (c s)).

End View.

(** *** A concrete view for the examples

    Viewports are rectangles [(left, top, width, height)] of the canvas; the
    canvas size does not move them. *)
Definition Rect : Type := (float * float) * (float * float).

Definition rectangles : ViewportClass :=
  {| Geometry := Rect;
     newEnabled := true;
     newGeometry := ((0, 0), (0, 0))%float;
     isPointInside := fun g px py =>
       let '((l, t), (w, h)) := g in
       ((l <=? px) && (px <? l + w) && (t <=? py) && (py <? t + h))%float;
     getDeviceX := fun g px => let '((l, _), (w, _)) := g in ((px - l) / w * 2 - 1)%float;
     getDeviceY := fun g py => let '((_, t), (_, h)) := g in (1 - (py - t) / h * 2)%float;
     setCanvasSize := fun _ _ g => g |}.

Definition boxComponent : Component := {| type := "Box"; node := Some 7 |}.
Definition box : Object3D := {| id := 1; userData_component := Some boxComponent |}.
Definition helper : Object3D := {| id := 2; userData_component := None |}.

(** Scene and camera present; index 1 is a box with a component, index 2 an
    object without one, any other index is unknown; nothing stops
    propagation. *)
Definition demoSystem : RenderSystem :=
  {| activeScene := Some 0;
     activeCamera := Some 0;
     getObjectByIndex := fun i =>
       if (i =? 1)%Z then Some box else if (i =? 2)%Z then Some helper else None;
     systemOnPointer := fun _ => false;
     systemOnTrigger := fun _ => false |}.

(** The picker sees the box left of x = 10, the object without component
    left of x = 20, a stale index left of x = 30 and the background
    elsewhere. *)
Definition demoPicker : Picker :=
  {| pickIndex := fun _ _ e =>
       if (vb_localX e <? 10)%float then 1%Z
       else if (vb_localX e <? 20)%float then 2%Z
       else if (vb_localX e <? 30)%float then 3%Z
       else 0%Z |}.

(** Three registered viewports: 0 covers the left half of the top row, 1 the
    right half, 2 the bottom row and is disabled. *)
Definition demoHeap : ref -> @Viewport rectangles :=
  fun r =>
    match r with
    | 0 => @Build_Viewport rectangles true ((0, 0), (50, 50))%float
    | 1 => @Build_Viewport rectangles true ((50, 0), (50, 50))%float
    | _ => @Build_Viewport rectangles false ((0, 50), (100, 50))%float
    end.

Definition demo : @State rectangles :=
  {| system := Some demoSystem;
     picker := demoPicker;
     viewports := [0; 1; 2];
     activeViewport := None;
     activeObject3D := None;
     activeComponent := None;
     shouldResize := false;
     canvas := {| width := 100; height := 100; clientWidth := 100; clientHeight := 100 |};
     context := {| ctx_viewport := None; ctx_scene := None; ctx_camera := None |};
     heap := demoHeap;
     nextRef := 3;
     effects := [] |}.

Definition pointerAt (t : EPointerEventType) (primary : bool) (px py : float)
  : IManipPointerEvent :=
  {| p_type := t; p_isPrimary := primary; p_localX := px; p_localY := py;
     p_movementX := 0; p_movementY := 0 |}.

Definition wheelAt (px py : float) : IManipTriggerEvent :=
  {| t_type := Wheel; t_wheel := 1; t_localX := px; t_localY := py |}.

(** A gesture on the demo view: press on the box, leave all viewports while
    hovering, move, turn the wheel over viewport 1. *)
Definition pressBox : IManipPointerEvent := pointerAt Down true 5 5.
Definition hoverOutside : IManipPointerEvent := pointerAt Hover true 60 60.
Definition moveOutside : IManipPointerEvent := pointerAt Move true 60 60.

Definition demoInputs : list Input :=
  [PointerInput pressBox; PointerInput hoverOutside; PointerInput moveOutside;
   TriggerInput (wheelAt 60 5)].

(** The demo view after the press on the box. *)
Definition pressed : @State rectangles := stateOf (onPointer pressBox demo).

(** The demo view while its render system has no scene yet. *)
Definition idleSystem : RenderSystem :=
  {| activeScene := None;
     activeCamera := Some 0;
     getObjectByIndex := fun _ => None;
     systemOnPointer := fun _ => false;
     systemOnTrigger := fun _ => false |}.

Definition demoIdle : @State rectangles :=
  {| system := Some idleSystem;
     picker := demoPicker;
     viewports := [0; 1; 2];
     activeViewport := None;
     activeObject3D := None;
     activeComponent := None;
     shouldResize := true;
     canvas := {| width := 100; height := 100; clientWidth := 200; clientHeight := 150 |};
     context := {| ctx_viewport := None; ctx_scene := None; ctx_camera := None |};
     heap := demoHeap;
     nextRef := 3;
     effects := [] |}.

(** Calls of the public methods on the demo view. *)
Definition demoCalls : list Operation :=
  [OpAddViewports 2; OpRemoveViewport 1; OpEnableViewport 9 true;
   OpOnPointer pressBox; OpAddViewport; OpRender; OpRemoveViewport 4].

Definition hoverRight : IManipPointerEvent := pointerAt Hover true 60 5.




End RenderView.

Module CameraController.

Local Open Scope float_scope.

Record Vector3 : Type := {
  x : float;
  y : float;
  z : float
}.

Inductive EManipMode : Type := Off | Pan | Orbit | Dolly | Zoom | PanDolly | Roll.
Inductive EManipPhase : Type := PhaseOff | Active | Release.

Record State : Type := {
  orbit : Vector3;
  offset : Vector3;
  minOrbit : Vector3;
  maxOrbit : Vector3;
  minOffset : Vector3;
  maxOffset : Vector3;
  orientationEnabled : bool;
  offsetEnabled : bool;
  (** [undefined] once [getModeFromEvent] has found no mode *)
  mode : option EManipMode;
  phase : EManipPhase;
  prevPinchDist : float;
  deltaX : float;
  deltaY : float;
  deltaPinch : float;
  deltaWheel : float;
  viewportWidth : float;
  viewportHeight : float
}.

(** The field initialisers of the class. *)
Definition initial : State :=
  {| orbit := {| x := 0; y := 0; z := 0 |};
     offset := {| x := 0; y := 0; z := 50 |};
     minOrbit := {| x := -90; y := neg_infinity; z := neg_infinity |};
     maxOrbit := {| x := 90; y := infinity; z := infinity |};
     minOffset := {| x := neg_infinity; y := neg_infinity; z := 0.1 |};
     maxOffset := {| x := infinity; y := infinity; z := 1000 |};
     orientationEnabled := true;
     offsetEnabled := true;
     mode := Some Off;
     phase := PhaseOff;
     prevPinchDist := 0;
     deltaX := 0;
     deltaY := 0;
     deltaPinch := 0;
     deltaWheel := 0;
     viewportWidth := 100;
     viewportHeight := 100 |}.

Definition setPose (o f : Vector3) (s : State) : State :=
  {| orbit := o; offset := f;
     minOrbit := minOrbit s; maxOrbit := maxOrbit s;
     minOffset := minOffset s; maxOffset := maxOffset s;
     orientationEnabled := orientationEnabled s; offsetEnabled := offsetEnabled s;
     mode := mode s; phase := phase s; prevPinchDist := prevPinchDist s;
     deltaX := deltaX s; deltaY := deltaY s; deltaPinch := deltaPinch s;
     deltaWheel := deltaWheel s;
     viewportWidth := viewportWidth s; viewportHeight := viewportHeight s |}.

Definition setManip (m : option EManipMode) (p : EManipPhase) (s : State) : State :=
  {| orbit := orbit s; offset := offset s;
     minOrbit := minOrbit s; maxOrbit := maxOrbit s;
     minOffset := minOffset s; maxOffset := maxOffset s;
     orientationEnabled := orientationEnabled s; offsetEnabled := offsetEnabled s;
     mode := m; phase := p; prevPinchDist := prevPinchDist s;
     deltaX := deltaX s; deltaY := deltaY s; deltaPinch := deltaPinch s;
     deltaWheel := deltaWheel s;
     viewportWidth := viewportWidth s; viewportHeight := viewportHeight s |}.

Definition setDeltas (dx dy dpinch dwheel : float) (s : State) : State :=
  {| orbit := orbit s; offset := offset s;
     minOrbit := minOrbit s; maxOrbit := maxOrbit s;
     minOffset := minOffset s; maxOffset := maxOffset s;
     orientationEnabled := orientationEnabled s; offsetEnabled := offsetEnabled s;
     mode := mode s; phase := phase s; prevPinchDist := prevPinchDist s;
     deltaX := dx; deltaY := dy; deltaPinch := dpinch;
     deltaWheel := dwheel;
     viewportWidth := viewportWidth s; viewportHeight := viewportHeight s |}.

Definition setPrevPinchDist (d : float) (s : State) : State :=
  {| orbit := orbit s; offset := offset s;
     minOrbit := minOrbit s; maxOrbit := maxOrbit s;
     minOffset := minOffset s; maxOffset := maxOffset s;
     orientationEnabled := orientationEnabled s; offsetEnabled := offsetEnabled s;
     mode := mode s; phase := phase s; prevPinchDist := d;
     deltaX := deltaX s; deltaY := deltaY s; deltaPinch := deltaPinch s;
     deltaWheel := deltaWheel s;
     viewportWidth := viewportWidth s; viewportHeight := viewportHeight s |}.

Definition setViewportSize (w h : float) (s : State) : State :=
  {| orbit := orbit s; offset := offset s;
     minOrbit := minOrbit s; maxOrbit := maxOrbit s;
     minOffset := minOffset s; maxOffset := maxOffset s;
     orientationEnabled := orientationEnabled s; offsetEnabled := offsetEnabled s;
     mode := mode s; phase := phase s; prevPinchDist := prevPinchDist s;
     deltaX := deltaX s; deltaY := deltaY s; deltaPinch := deltaPinch s;
     deltaWheel := deltaWheel s;
     viewportWidth := w; viewportHeight := h |}.

(** Modelled from the spec: [math.limit] of the module [@ff/core/math], which
    is not among the sources. It is described as the clamp of a value to
    [[min, max]]; it is taken as the comparison chain
    [v < min ? min : (v > max ? max : v)]. *)
Definition limit (v lo hi : float) : float :=
  if v <? lo then lo else if hi <? v then hi else v.

Definition inverse : float := -1.

Definition updatePose (dX dY dScale dPitch dHead dRoll : float) (s : State) : State :=
  let orbit1 :=
    if orientationEnabled s then
      let ox := x (orbit s) + inverse * dPitch * 300 / viewportHeight s in
      let oy := y (orbit s) + inverse * dHead * 300 / viewportHeight s in
      let oz := z (orbit s) + inverse * dRoll * 300 / viewportHeight s in
      {| x := limit ox (x (minOrbit s)) (x (maxOrbit s));
         y := limit oy (y (minOrbit s)) (y (maxOrbit s));
         z := limit oz (z (minOrbit s)) (z (maxOrbit s)) |}
    else orbit s in
  let offset1 :=
    if offsetEnabled s then
      let factor := dScale * z (offset s) in
      let fx := x (offset s) + dX * factor * inverse / viewportHeight s in
      let fy := y (offset s) - dY * factor * inverse / viewportHeight s in
      {| x := limit fx (x (minOffset s)) (x (maxOffset s));
         y := limit fy (y (minOffset s)) (y (maxOffset s));
         z := limit factor (z (minOffset s)) (z (maxOffset s)) |}
    else offset s in
  setPose orbit1 offset1 s.

Definition updateByMode (s : State) : State :=
  match mode s with
  | Some Orbit => updatePose 0 0 1 (deltaY s) (deltaX s) 0 s
  | Some Pan => updatePose (deltaX s) (deltaY s) 1 0 0 0 s
  | Some Roll => updatePose 0 0 1 0 0 (deltaX s) s
  | Some Dolly => updatePose 0 0 (deltaY s * 0.0075 + 1) 0 0 0 s
  | Some PanDolly =>
      let pinchScale := (deltaPinch s - 1) * 0.5 + 1 in
      updatePose (deltaX s) (deltaY s) (1 / pinchScale) 0 0 0 s
  | _ => s
  end.

Definition isPhase (a b : EManipPhase) : bool :=
  match a, b with
  | PhaseOff, PhaseOff | Active, Active | Release, Release => true
  | _, _ => false
  end.

(** [update]: the new state and the returned flag. *)
Definition update (s : State) : bool * State :=
  if isPhase (phase s) PhaseOff && (deltaWheel s =? 0) then (false, s)
  else if negb (deltaWheel s =? 0) then
    let s1 := updatePose 0 0 (deltaWheel s * 0.07 + 1) 0 0 0 s in
    (true, setDeltas (deltaX s1) (deltaY s1) (deltaPinch s1) 0 s1)
  else if isPhase (phase s) Active then
    if (deltaX s =? 0) && (deltaY s =? 0) && (deltaPinch s =? 1) then (false, s)
    else
      let s1 := updateByMode s in
      (true, setDeltas 0 0 1 (deltaWheel s1) s1)
  else if isPhase (phase s) Release then
    let s1 := setDeltas (deltaX s * 0.85) (deltaY s * 0.85) 1 (deltaWheel s) s in
    let s2 := updateByMode s1 in
    let delta := abs (deltaX s2) + abs (deltaY s2) in
    if delta <? 0.1 then (true, setManip (Some Off) PhaseOff s2)
    else (true, s2)
  else (false, s).

Record IPointerEvent : Type := {
  type : string;
  isPrimary : bool;
  source : string;
  button : Z;
  ctrlKey : bool;
  altKey : bool;
  movementX : float;
  movementY : float;
  pointerCount : Z;
  (** [clientX], [clientY] of each active position *)
  activePositions : list (float * float)
}.

Record ITriggerEvent : Type := {
  t_type : string;
  wheel : float
}.

Definition getModeFromEvent (ev : IPointerEvent) : option EManipMode :=
  if String.eqb (source ev) "mouse" then
    if (button ev =? 0)%Z then
      if ctrlKey ev then Some Pan
      else if altKey ev then Some Dolly
      else Some Orbit
    else if (button ev =? 2)%Z then
      if altKey ev then Some Roll else Some Pan
    else if (button ev =? 1)%Z then Some Dolly
    else None
  else if String.eqb (source ev) "touch" then
    if (pointerCount ev =? 1)%Z then Some Orbit
    else if (pointerCount ev =? 2)%Z then Some PanDolly
    else Some Pan
  else None.

(** [a || b] on numbers: [a] unless it is 0 or NaN. *)
Definition orElse (a b : float) : float :=
  if (a =? 0) || is_nan a then b else a.

Definition setPhase (p : EManipPhase) (s : State) : State := setManip (mode s) p s.

Definition onPointer (ev : IPointerEvent) : M State bool :=
  fun s =>
    let isDown := String.eqb (type ev) "pointer-down" in
    let isUp := String.eqb (type ev) "pointer-up" in
    (* [inr]: the early [return true] of a primary pointer-up *)
    match (if isPrimary ev then
             if isDown then inl (setPhase Active s)
             else if isUp then inr (setPhase Release s)
             else inl s
           else inl s) with
    | inr s' => Ok true s'
    | inl s1 =>
        let s2 := if isDown then setManip (getModeFromEvent ev) (phase s1) s1 else s1 in
        let keyMultiplier := 1 in
        let dx := deltaX s2 + movementX ev * keyMultiplier in
        let dy := deltaY s2 + movementY ev * keyMultiplier in
        let s3 := setDeltas dx dy (deltaPinch s2) (deltaWheel s2) s2 in
        if (pointerCount ev =? 2)%Z then
          match activePositions ev with
          | p0 :: p1 :: _ =>
              let ddx := fst p1 - fst p0 in
              let ddy := snd p1 - snd p0 in
              let pinchDist := sqrt (ddx * ddx + ddy * ddy) in
              let prev := orElse (prevPinchDist s3) pinchDist in
              let dp := deltaPinch s3 * (if 0 <? prev then pinchDist / prev else 1) in
              Ok true (setPrevPinchDist pinchDist
                         (setDeltas (deltaX s3) (deltaY s3) dp (deltaWheel s3) s3))
          | _ => Throw (TypeError "cannot read properties of undefined") s3
          end
        else
          Ok true (setPrevPinchDist 0
                     (setDeltas (deltaX s3) (deltaY s3) 1 (deltaWheel s3) s3))
    end.

Definition onTrigger (ev : ITriggerEvent) (s : State) : bool * State :=
  if String.eqb (t_type ev) "wheel" then
    (true, setDeltas (deltaX s) (deltaY s) (deltaPinch s)
                     (deltaWheel s + limit (wheel ev) (-1) 1) s)
  else (false, s).

(** [lo <= v <= hi] as the program's comparisons decide it. *)
Definition within (v lo hi : float) : bool := (lo <=? v) && (v <=? hi).

Definition withinV (v lo hi : Vector3) : bool :=
  within (x v) (x lo) (x hi) && within (y v) (y lo) (y hi) && within (z v) (z lo) (z hi).

Inductive Axis : Type := X | Y | Z.

Definition coord (a : Axis) (v : Vector3) : float :=
  match a with
  | X => x v
  | Y => y v
  | Z => z v
  end.

(** In every component the lower limit is at most the upper limit. *)
Definition orderedLimits (s : State) : Prop :=
  forall a : Axis,
    (coord a (minOrbit s) <=? coord a (maxOrbit s)) = true /\
    (coord a (minOffset s) <=? coord a (maxOffset s)) = true.

(** Every component of [orbit] and of [offset] lies within its limits. *)
Definition allWithinLimits (s : State) : Prop :=
  forall a : Axis,
    within (coord a (orbit s)) (coord a (minOrbit s)) (coord a (maxOrbit s)) = true /\
    within (coord a (offset s)) (coord a (minOffset s)) (coord a (maxOffset s)) = true.

(** Every component of [orbit] and of [offset] that is a number lies within
    its limits. *)
Definition numbersWithinLimits (s : State) : Prop :=
  forall a : Axis,
    (is_nan (coord a (orbit s)) = false ->
     within (coord a (orbit s)) (coord a (minOrbit s)) (coord a (maxOrbit s)) = true) /\
    (is_nan (coord a (offset s)) = false ->
     within (coord a (offset s)) (coord a (minOffset s)) (coord a (maxOffset s)) = true).

(** The pose and its limits: what the two properties above read. *)
Definition pose (s : State) : (Vector3 * Vector3) * (Vector3 * Vector3) * (Vector3 * Vector3) :=
  ((orbit s, offset s), (minOrbit s, maxOrbit s), (minOffset s, maxOffset s)).

(** One notch of the wheel, and the controller of a viewport of height 0
    that has received it. *)
Definition wheelUp : ITriggerEvent := {| t_type := "wheel"; wheel := 1 |}.

Definition flat : State := setViewportSize 100 0 (snd (onTrigger wheelUp initial)).

(** *** Notions for runs of the controller *)

(** A call the input layer or the frame loop makes. *)
Inductive Call : Type :=
| CallPointer (ev : IPointerEvent)
| CallTrigger (ev : ITriggerEvent)
| CallUpdate
| CallSetViewportSize (w h : float).

(** The state after the call; an exception of [onPointer] leaves the state
    it had reached. *)
Definition call (c : Call) (s : State) : State :=
  match c with
  | CallPointer ev => stateOf (onPointer ev s)
  | CallTrigger ev => snd (onTrigger ev s)
  | CallUpdate => snd (update s)
  | CallSetViewportSize w h => setViewportSize w h s
  end.

Fixpoint run (cs : list Call) (s : State) : State :=
  match cs with
  | [] => s
  | c :: rest => run rest (call c s)
  end.

(** The limits and the two switches. *)
Definition settings (s : State)
  : (Vector3 * Vector3) * (Vector3 * Vector3) * (bool * bool) :=
  ((minOrbit s, maxOrbit s), (minOffset s, maxOffset s),
   (orientationEnabled s, offsetEnabled s)).

(** What the input handlers write: mode, phase, the pending deltas and the
    last pinch distance. *)
Definition manip (s : State)
  : option EManipMode * EManipPhase * (float * float * float * float) * float :=
  (mode s, phase s, (deltaX s, deltaY s, deltaPinch s, deltaWheel s), prevPinchDist s).

Definition viewportSize (s : State) : float * float :=
  (viewportWidth s, viewportHeight s).

(** A drag with the left mouse button, the pen that no mode is known for,
    and a two-finger touch that reports one position only. *)
Definition leftDown : IPointerEvent :=
  {| type := "pointer-down"; isPrimary := true; source := "mouse"; button := 0%Z;
     ctrlKey := false; altKey := false; movementX := 0; movementY := 0;
     pointerCount := 1%Z; activePositions := [(10, 10)] |}.

Definition leftMove : IPointerEvent :=
  {| type := "pointer-move"; isPrimary := true; source := "mouse"; button := 0%Z;
     ctrlKey := false; altKey := false; movementX := 12; movementY := -4;
     pointerCount := 1%Z; activePositions := [(22, 6)] |}.

Definition leftUp : IPointerEvent :=
  {| type := "pointer-up"; isPrimary := true; source := "mouse"; button := 0%Z;
     ctrlKey := false; altKey := false; movementX := 3; movementY := 3;
     pointerCount := 1%Z; activePositions := [] |}.

Definition penDown : IPointerEvent :=
  {| type := "pointer-down"; isPrimary := true; source := "pen"; button := 0%Z;
     ctrlKey := false; altKey := false; movementX := 0; movementY := 0;
     pointerCount := 1%Z; activePositions := [(10, 10)] |}.

Definition brokenPinch : IPointerEvent :=
  {| type := "pointer-move"; isPrimary := false; source := "touch"; button := 0%Z;
     ctrlKey := false; altKey := false; movementX := 5; movementY := 7;
     pointerCount := 2%Z; activePositions := [(10, 10)] |}.

Definition dragging : State := run [CallPointer leftDown; CallPointer leftMove] initial.

Definition demoRun : list Call :=
  [CallPointer leftDown; CallPointer leftMove; CallUpdate; CallTrigger wheelUp;
   CallSetViewportSize 640 480; CallUpdate; CallPointer leftUp; CallUpdate;
   CallPointer brokenPinch; CallUpdate].

End CameraController.

Module HTMLSpriteGroup.

(** *** The sprite group

    [HTMLSpriteGroup] is a [THREE.Object3D] whose children are HTML sprites.
    Of a sprite the group writes [visible] and calls [dispose],
    [disposeHTMLElement], [getHTMLElement], [renderHTMLElement] and [update];
    the calls are recorded, and [getHTMLElement] is given by its answer. *)

Definition Container : Type := nat.
Definition Element : Type := nat.
Definition Camera : Type := nat.

Record HTMLSprite : Type := {
  visible : bool;
  (** the answer of [getHTMLElement(container)]: an element, or none *)
  htmlElement : Container -> option Element
}.

Inductive Effect : Type :=
| SpriteDispose (sprite : ref)
| SpriteDisposeHTMLElement (sprite : ref) (container : Container)
| SpriteGetHTMLElement (sprite : ref) (container : Container)
| SpriteRenderHTMLElement (sprite : ref) (element : Element) (container : Container)
    (camera : Camera)
| SpriteUpdate (sprite : ref).

Record State : Type := {
  _visible : bool;
  children : list ref;
  sprites : ref -> HTMLSprite;
  effects : list Effect
}.

Definition getVisible (s : State) : bool := _visible s.

Definition setSpriteVisible (v : bool) (r : ref) (sp : ref -> HTMLSprite)
  : ref -> HTMLSprite :=
  fun r' => if Nat.eqb r' r
            then {| visible := v; htmlElement := htmlElement (sp r) |}
            else sp r'.

(** The setter of [visible]. *)
Definition setVisible (v : bool) (s : State) : State :=
  if Bool.eqb v (_visible s) then s
  else
    {| _visible := v;
       children := children s;
       sprites := fold_left (fun sp r => setSpriteVisible v r sp) (children s) (sprites s);
       effects := effects s |}.

Definition emitAll (l : list Effect) (s : State) : State :=
  {| _visible := _visible s; children := children s; sprites := sprites s;
     effects := effects s ++ l |}.

Definition dispose (s : State) : State :=
  emitAll (map SpriteDispose (children s)) s.

Definition disposeHTMLElements (container : Container) (s : State) : State :=
  emitAll (map (fun r => SpriteDisposeHTMLElement r container) (children s)) s.

(** The body of the loop of [render]: the child is asked for its element in
    the container and, if it has one, renders it. *)
Definition renderChild (container : Container) (camera : Camera) (child : ref) (s : State)
  : State :=
  let s1 := emitAll [SpriteGetHTMLElement child container] s in
  match htmlElement (sprites s1 child) container with
  | Some element => emitAll [SpriteRenderHTMLElement child element container camera] s1
  | None => s1
  end.

(** The loop of [render] over the children, in their order. *)
Fixpoint renderChildren (container : Container) (camera : Camera) (cs : list ref)
  (s : State) : State :=
  match cs with
  | [] => s
  | child :: rest =>
      renderChildren container camera rest (renderChild container camera child s)
  end.

Definition render (container : Container) (camera : Camera) (s : State) : State :=
  if negb (getVisible s) then s
  else renderChildren container camera (children s) s.

Definition update (s : State) : State :=
  emitAll (map SpriteUpdate (children s)) s.

(** The calls a shown group is to make on one child, given the sprites
    [sp]: [getHTMLElement(container)] first, then, if that gave an element,
    [renderHTMLElement] with this element, the container and the camera. *)
Definition childCalls (container : Container) (camera : Camera) (sp : ref -> HTMLSprite)
  (child : ref) : list Effect :=
  SpriteGetHTMLElement child container ::
  match htmlElement (sp child) container with
  | Some element => [SpriteRenderHTMLElement child element container camera]
  | None => []
  end.

(** The sprites a call of [render] has drawn, oldest first. *)
Fixpoint rendered (l : list Effect) : list ref :=
  match l with
  | [] => []
  | SpriteRenderHTMLElement r _ _ _ :: rest => r :: rendered rest
  | _ :: rest => rendered rest
  end.

(** A group with three sprites: the second is hidden on its own, the third
    has no element in container 0. *)
Definition demoSprites : ref -> HTMLSprite :=
  fun r =>
    match r with
    | 0 => {| visible := true; htmlElement := fun _ => Some 10 |}
    | 1 => {| visible := false; htmlElement := fun _ => Some 11 |}
    | _ => {| visible := true; htmlElement := fun _ => None |}
    end.

Definition demoGroup : State :=
  {| _visible := true; children := [0; 1; 2]; sprites := demoSprites; effects := [] |}.

End HTMLSpriteGroup.

(** * Properties of the render view *)

Import RenderView.

Unset Implicit Arguments.

Section RenderViewFacts.

Context {VC : ViewportClass}.

(** The hit test returns the first enabled viewport that contains the point. *)
Lemma hitTest_first (hp : ref -> Viewport) (x y : float) (vps : list ref) (vp : ref) :
  hitTest hp x y vps = Some vp ->
  exists i : nat,
    nth_error vps i = Some vp /\
    enabled (hp vp) && isPointInside (geometry (hp vp)) x y = true /\
    forall (j : nat) (vp' : ref),
      j < i -> nth_error vps j = Some vp' ->
      enabled (hp vp') && isPointInside (geometry (hp vp')) x y = false.
Proof.
  induction vps as [|v rest IH]; simpl; [discriminate|].
  destruct (enabled (hp v) && isPointInside (geometry (hp v)) x y) eqn:Hv.
  - intros [= <-]. exists 0; repeat split; auto. intros j vp' Hj; lia.
  - intros Hrest. destruct (IH Hrest) as (i & Hi & Hc & Hbefore).
    exists (S i); repeat split; auto.
    intros [|j] vp' Hj; simpl.
    + intros [= <-]; exact Hv.
    + apply Hbefore; lia.
Qed.

Lemma hitTest_none (hp : ref -> Viewport) (x y : float) (vps : list ref) :
  hitTest hp x y vps = None <->
  forall vp, In vp vps -> enabled (hp vp) && isPointInside (geometry (hp vp)) x y = false.
Proof.
  induction vps as [|v rest IH]; simpl.
  - split; [intros _ vp []|reflexivity].
  - destruct (enabled (hp v) && isPointInside (geometry (hp v)) x y) eqn:Hv.
    + split; [discriminate|]. intros H. rewrite (H v) in Hv; [discriminate|now left].
    + rewrite IH. split.
      * intros H vp [<-|Hin]; auto.
      * intros H vp Hin; apply H; now right.
Qed.

Lemma hitTest_In (hp : ref -> Viewport) (x y : float) (vps : list ref) (vp : ref) :
  hitTest hp x y vps = Some vp -> In vp vps /\ enabled (hp vp) = true.
Proof.
  intros H. destruct (hitTest_first _ _ _ _ _ H) as (i & Hi & Hc & _).
  split; [eapply nth_error_In; eauto|].
  now apply andb_true_iff in Hc.
Qed.

(** Two first containing viewports are the same one. *)
Lemma firstContaining_unique (s : State) (x y : float) (v w : ref) :
  firstContaining s x y v -> firstContaining s x y w -> v = w.
Proof.
  intros (i & Hi & Hci & Hbi) (j & Hj & Hcj & Hbj).
  destruct (Nat.lt_trichotomy i j) as [Hlt|[->|Hlt]].
  - rewrite (Hbj i v Hlt Hi) in Hci; discriminate.
  - congruence.
  - rewrite (Hbi j w Hlt Hj) in Hcj; discriminate.
Qed.

Lemma hitTest_firstContaining (s : State) (x y : float) (vp : ref) :
  hitTest (heap s) x y (viewports s) = Some vp <-> firstContaining s x y vp.
Proof.
  split.
  - intros H. exact (hitTest_first _ _ _ _ _ H).
  - intros Hf. destruct (hitTest (heap s) x y (viewports s)) as [w|] eqn:Hw.
    + f_equal. eapply firstContaining_unique; eauto. exact (hitTest_first _ _ _ _ _ Hw).
    + destruct Hf as (i & Hi & Hc & _).
      rewrite hitTest_none in Hw. unfold contains in Hc.
      rewrite (Hw vp) in Hc; [discriminate|eapply nth_error_In; eauto].
Qed.

Lemma hitTest_noneContaining (s : State) (x y : float) :
  hitTest (heap s) x y (viewports s) = None <-> noneContaining s x y.
Proof. apply hitTest_none. Qed.

(** [routeEvent] and [pick] written as the case analysis they perform. *)
Lemma routeEvent_unfold {E : Type} `{IManipBaseEvent E} (ev : E) (h p : bool) (s : State) :
  routeEvent ev h p s =
  match resolveViewport s (localX ev) (localY ev) h with
  | None => Ok None s
  | Some vp =>
      match (if p then pick (augment s (localX ev) (localY ev) vp) s
             else Ok (activeObject3D s, activeComponent s) s) with
      | Ok picked s1 =>
          Ok (Some {| event := ev; viewport := vp;
                      deviceX := getDeviceX (geometry (heap s vp)) (localX ev);
                      deviceY := getDeviceY (geometry (heap s vp)) (localY ev);
                      object3D := fst picked; component := snd picked;
                      ev_node := match snd picked with
                                 | Some c => node c
                                 | None => None
                                 end;
                      stopPropagation := false |})
             (setActive (Some vp) (fst picked) (snd picked) s1)
      | Throw e s1 => Throw e s1
      end
  end.
Proof.
  unfold routeEvent, bind, get.
  destruct (resolveViewport s (localX ev) (localY ev) h) as [vp|]; [|reflexivity].
  destruct p; [|reflexivity].
  destruct (pick (augment s (localX ev) (localY ev) vp) s); reflexivity.
Qed.

Lemma pick_unfold (vb : IViewportBaseEvent) (s : State) :
  pick vb s =
  match system s with
  | None => Throw (TypeError "cannot read properties of null") s
  | Some sys =>
      match activeScene sys, activeCamera sys with
      | Some scene, Some camera =>
          let index := pickIndex (picker s) scene camera vb in
          if (index =? 0)%Z then
            Ok (None, None) (setEffects (effects s ++ [ConsoleLogBackground]) s)
          else
            match getObjectByIndex sys index with
            | Some obj =>
                match userData_component obj with
                | Some c =>
                    Ok (Some obj, Some c)
                       (setEffects (effects s ++ [ConsoleLogComponent index (type c)]) s)
                | None => Throw (TypeError "cannot read properties of undefined") s
                end
            | None => Ok (None, None) s
            end
      | _, _ => Ok (None, None) s
      end
  end.
Proof.
  unfold pick, bind, theSystem, get.
  destruct (system s) as [sys|]; [|reflexivity].
  destruct (activeScene sys) as [scene|]; [|reflexivity].
  destruct (activeCamera sys) as [camera|]; [|reflexivity].
  cbv zeta.
  destruct (pickIndex (picker s) scene camera vb =? 0)%Z; [reflexivity|].
  destruct (getObjectByIndex sys (pickIndex (picker s) scene camera vb)) as [obj|];
    [|reflexivity].
  destruct (userData_component obj); reflexivity.
Qed.

(** The pick only writes to the console, and not at all when it throws. *)
Lemma pick_frame (vb : IViewportBaseEvent) (s s' : State)
  (r : option Object3D * option Component) :
  pick vb s = Ok r s' ->
  exists logs : list Effect,
    s' = setEffects (effects s ++ logs) s /\
    Forall (fun e => routedViewport e = None) logs.
Proof.
  rewrite pick_unfold.
  destruct (system s) as [sys|]; [|discriminate].
  destruct (activeScene sys) as [scene|];
    [|intros [= _ <-]; exists []; rewrite app_nil_r; destruct s; auto].
  destruct (activeCamera sys) as [camera|];
    [|intros [= _ <-]; exists []; rewrite app_nil_r; destruct s; auto].
  cbv zeta.
  destruct (pickIndex (picker s) scene camera vb =? 0)%Z.
  - intros [= _ <-]. exists [ConsoleLogBackground]; split; auto.
  - destruct (getObjectByIndex sys (pickIndex (picker s) scene camera vb)) as [obj|].
    + destruct (userData_component obj) as [c|]; [|discriminate].
      intros [= _ <-]. eexists [_]; split; [reflexivity|]. repeat constructor.
    + intros [= _ <-]. exists []; rewrite app_nil_r; destruct s; auto.
Qed.

Lemma pick_throw (vb : IViewportBaseEvent) (s s' : State) (e : exn) :
  pick vb s = Throw e s' -> s' = s.
Proof.
  rewrite pick_unfold.
  destruct (system s) as [sys|]; [|now intros [= _ <-]].
  destruct (activeScene sys) as [scene|]; [|discriminate].
  destruct (activeCamera sys) as [camera|]; [|discriminate].
  cbv zeta.
  destruct (pickIndex (picker s) scene camera vb =? 0)%Z; [discriminate|].
  destruct (getObjectByIndex sys (pickIndex (picker s) scene camera vb)) as [obj|];
    [|discriminate].
  destruct (userData_component obj); [discriminate|now intros [= _ <-]].
Qed.

(** Either no enabled viewport contains the point, or there is a first one. *)
Lemma containing_cases (s : State) (x y : float) :
  noneContaining s x y \/ exists vp, firstContaining s x y vp.
Proof.
  destruct (hitTest (heap s) x y (viewports s)) as [vp|] eqn:Hh.
  - right; exists vp; now apply hitTest_firstContaining.
  - left; now apply hitTest_noneContaining.
Qed.

Lemma routeEvent_none {E : Type} `{IManipBaseEvent E} (ev : E) (h p : bool) (s : State) :
  resolveViewport s (localX ev) (localY ev) h = None ->
  routeEvent ev h p s = Ok None s.
Proof. intros Hr; rewrite routeEvent_unfold, Hr; reflexivity. Qed.

(** What a call of [routeEvent] that goes on with viewport [vp] can do. *)
Lemma routeEvent_some {E : Type} `{IManipBaseEvent E} (ev : E) (h p : bool) (s : State)
  (vp : ref) :
  resolveViewport s (localX ev) (localY ev) h = Some vp ->
  (exists (ve : IBaseEvent E) (s' : State) (logs : list Effect),
      routeEvent ev h p s = Ok (Some ve) s' /\
      viewport ve = vp /\ event ve = ev /\ stopPropagation ve = false /\
      s' = setActive (Some vp) (object3D ve) (component ve)
             (setEffects (effects s ++ logs) s) /\
      Forall (fun e => routedViewport e = None) logs /\
      (p = false -> logs = [] /\ object3D ve = activeObject3D s /\
                    component ve = activeComponent s)) \/
  (p = true /\ exists e : exn, routeEvent ev h p s = Throw e s).
Proof.
  intros Hr. rewrite routeEvent_unfold, Hr.
  destruct p.
  - destruct (pick (augment s (localX ev) (localY ev) vp) s) as [r s1|e s1] eqn:Hp.
    + left. destruct (pick_frame _ _ _ _ Hp) as (logs & -> & Hlogs).
      do 3 eexists; split; [reflexivity|]. simpl.
      repeat split; auto; discriminate.
    + right. split; auto. exists e. now rewrite (pick_throw _ _ _ _ Hp).
  - left. do 2 eexists; exists []; split; [reflexivity|]. simpl.
    rewrite app_nil_r. repeat split; auto.
Qed.

Lemma resolveViewport_resolves (s : State) (x y : float) (h : bool) (vp : ref) :
  resolveViewport s x y h = Some vp <-> resolves s x y h vp.
Proof.
  unfold resolveViewport, resolves. destruct h; [apply hitTest_firstContaining|tauto].
Qed.

Lemma onPointer_unfold (ev : IManipPointerEvent) (s : State) :
  onPointer ev s =
  match system s with
  | None => Ok false s
  | Some sys =>
      match routeEvent ev (fst (pointerFlags ev)) (snd (pointerFlags ev)) s with
      | Ok (Some ve) s1 =>
          Ok true
             (setEffects
                (effects s1 ++
                 SystemPointer ve ::
                 (if systemOnPointer sys ve then []
                  else [ViewportPointer (viewport ve) ve])) s1)
      | Ok None s1 => Ok false s1
      | Throw e s1 => Throw e s1
      end
  end.
Proof.
  unfold onPointer. destruct (system s) as [sys|]; [|reflexivity].
  unfold bind.
  destruct (routeEvent ev (fst (pointerFlags ev)) (snd (pointerFlags ev)) s)
    as [[ve|] s1|e s1]; try reflexivity.
  unfold emit, ret; simpl.
  destruct (systemOnPointer sys ve); simpl; [reflexivity|].
  now rewrite <- app_assoc.
Qed.

Lemma onTrigger_unfold (ev : IManipTriggerEvent) (s : State) :
  onTrigger ev s =
  match system s with
  | None => Ok false s
  | Some sys =>
      match routeEvent ev true true s with
      | Ok (Some ve) s1 =>
          Ok true
             (setEffects
                (effects s1 ++
                 SystemTrigger ve ::
                 (if systemOnTrigger sys ve then []
                  else [ViewportTrigger (viewport ve) ve])) s1)
      | Ok None s1 => Ok false s1
      | Throw e s1 => Throw e s1
      end
  end.
Proof.
  unfold onTrigger. destruct (system s) as [sys|]; [|reflexivity].
  unfold bind.
  destruct (routeEvent ev true true s) as [[ve|] s1|e s1]; try reflexivity.
  unfold emit, ret; simpl.
  destruct (systemOnTrigger sys ve); simpl; [reflexivity|].
  now rewrite <- app_assoc.
Qed.

(** C1. A call of [routeEvent] with [doHitTest] goes on with the first
    viewport, in registration order, that is enabled and contains the event's
    local coordinates: the routed event it returns names that viewport, and
    the only other outcome is an exception of the pick. When no enabled
    viewport contains the coordinates it returns [null] and leaves the view
    as it was, and the dispatch methods that hit-test deliver nothing and
    return [false]. *)
Theorem routeEvent_hit_test_first
  {E : Type} `{IManipBaseEvent E} (ev : E) (doPick : bool) (s : State) :
  (noneContaining s (localX ev) (localY ev) ->
   routeEvent ev true doPick s = Ok None s) /\
  (forall vp : ref,
      firstContaining s (localX ev) (localY ev) vp ->
      (exists (ve : IBaseEvent E) (s' : State),
          routeEvent ev true doPick s = Ok (Some ve) s' /\ viewport ve = vp) \/
      (doPick = true /\ exists e : exn, routeEvent ev true doPick s = Throw e s)) /\
  (forall (ve : IBaseEvent E) (s' : State),
      routeEvent ev true doPick s = Ok (Some ve) s' ->
      firstContaining s (localX ev) (localY ev) (viewport ve)) /\
  (forall t : IManipTriggerEvent,
      noneContaining s (t_localX t) (t_localY t) -> onTrigger t s = Ok false s) /\
  (forall p : IManipPointerEvent,
      fst (pointerFlags p) = true ->
      noneContaining s (p_localX p) (p_localY p) -> onPointer p s = Ok false s).
Proof.
  assert (Hsome : forall vp : ref,
             firstContaining s (localX ev) (localY ev) vp ->
             (exists (ve : IBaseEvent E) (s' : State),
                 routeEvent ev true doPick s = Ok (Some ve) s' /\ viewport ve = vp) \/
             (doPick = true /\ exists e : exn, routeEvent ev true doPick s = Throw e s)).
  { intros vp Hf.
    assert (Hr : resolveViewport s (localX ev) (localY ev) true = Some vp)
      by now apply resolveViewport_resolves.
    destruct (routeEvent_some ev true doPick s vp Hr)
      as [(ve & s' & logs & Hre & Hvp & _)|Hthrow]; [left; eauto|right; exact Hthrow]. }
  repeat split.
  - intros Hn. apply routeEvent_none. now apply hitTest_noneContaining.
  - exact Hsome.
  - intros ve s' Hre.
    destruct (containing_cases s (localX ev) (localY ev)) as [Hn|(vp & Hf)].
    + rewrite routeEvent_none in Hre; [discriminate|now apply hitTest_noneContaining].
    + destruct (Hsome vp Hf) as [(ve' & s'' & Hre' & Hvp)|(_ & e & Hthrow)];
        congruence.
  - intros t Hn. rewrite onTrigger_unfold.
    destruct (system s); [|reflexivity].
    rewrite routeEvent_none; [reflexivity|now apply hitTest_noneContaining].
  - intros p Hflag Hn. rewrite onPointer_unfold.
    destruct (system s); [|reflexivity].
    rewrite Hflag, routeEvent_none; [reflexivity|now apply hitTest_noneContaining].
Qed.

(** C3. When [routeEvent] is called with [doPick] and the picker answers 0
    for the viewport it goes on with, it returns a routed event whose
    [object3D], [component] and [node] are [null], and the active object and
    component of the view are [null] afterwards. *)
Theorem pick_index_zero_is_background
  {E : Type} `{IManipBaseEvent E} (ev : E) (doHitTest : bool) (s : State)
  (sys : RenderSystem) (vp : ref) :
  system s = Some sys ->
  resolves s (localX ev) (localY ev) doHitTest vp ->
  pickIsBackground s sys (localX ev) (localY ev) vp ->
  exists (ve : IBaseEvent E) (s' : State),
    routeEvent ev doHitTest true s = Ok (Some ve) s' /\
    viewport ve = vp /\
    object3D ve = None /\ component ve = None /\ ev_node ve = None /\
    activeObject3D s' = None /\ activeComponent s' = None.
Proof.
  intros Hsys Hres (scene & camera & Hsc & Hcam & Hidx).
  apply resolveViewport_resolves in Hres.
  rewrite routeEvent_unfold, Hres, pick_unfold, Hsys, Hsc, Hcam.
  cbv zeta. rewrite Hidx. simpl.
  do 2 eexists; split; [reflexivity|]. simpl. repeat split.
Qed.

(** C4. When [routeEvent] is called with [doPick] and the pick cannot be
    completed (no active scene, no active camera, or an index other than 0
    for which the render system has no object), it returns normally: the
    routed event has [object3D], [component] and [node] [null], the active
    object and component are [null], and nothing is logged. *)
Theorem pick_failure_clears_selection
  {E : Type} `{IManipBaseEvent E} (ev : E) (doHitTest : bool) (s : State)
  (sys : RenderSystem) (vp : ref) :
  system s = Some sys ->
  resolves s (localX ev) (localY ev) doHitTest vp ->
  pickFails s sys (localX ev) (localY ev) vp ->
  exists (ve : IBaseEvent E) (s' : State),
    routeEvent ev doHitTest true s = Ok (Some ve) s' /\
    viewport ve = vp /\
    object3D ve = None /\ component ve = None /\ ev_node ve = None /\
    activeObject3D s' = None /\ activeComponent s' = None /\
    effects s' = effects s.
Proof.
  intros Hsys Hres Hfail.
  apply resolveViewport_resolves in Hres.
  rewrite routeEvent_unfold, Hres, pick_unfold, Hsys.
  destruct Hfail as [Hsc|[Hcam|(scene & camera & Hsc & Hcam & Hidx & Hobj)]].
  - rewrite Hsc. do 2 eexists; split; [reflexivity|]. simpl. repeat split.
  - rewrite Hcam. destruct (activeScene sys);
      (do 2 eexists; split; [reflexivity|]; simpl; repeat split).
  - rewrite Hsc, Hcam. cbv zeta.
    apply Z.eqb_neq in Hidx. rewrite Hidx, Hobj.
    do 2 eexists; split; [reflexivity|]. simpl. repeat split.
Qed.

(** Every outcome of [routeEvent] from a state that satisfies the invariant. *)
Lemma routeEvent_outcome {E : Type} `{IManipBaseEvent E} (ev : E) (h p : bool) (s : State) :
  viewInv s ->
  match routeEvent ev h p s with
  | Ok (Some ve) s' =>
      registeredEnabled s (viewport ve) /\
      exists logs : list Effect,
        s' = setActive (Some (viewport ve)) (object3D ve) (component ve)
               (setEffects (effects s ++ logs) s) /\
        Forall (fun e => routedViewport e = None) logs
  | Ok None s' => s' = s
  | Throw _ s' => s' = s
  end.
Proof.
  intros Hinv.
  destruct (resolveViewport s (localX ev) (localY ev) h) as [vp|] eqn:Hr.
  - assert (Hvp : registeredEnabled s vp).
    { unfold resolveViewport in Hr. destruct h.
      - exact (hitTest_In _ _ _ _ _ Hr).
      - unfold viewInv in Hinv. now rewrite Hr in Hinv. }
    destruct (routeEvent_some ev h p s vp Hr)
      as [(ve & s' & logs & -> & <- & _ & _ & Hs' & Hlogs & _)|(_ & e & ->)]; eauto.
  - now rewrite routeEvent_none.
Qed.

Lemma quiet_routedOk (s : State) (logs : list Effect) :
  Forall (fun e => routedViewport e = None) logs -> Forall (routedOk s) logs.
Proof.
  apply Forall_impl. intros e He. unfold routedOk. now rewrite He.
Qed.

(** One input: what is added to the trace names registered, enabled
    viewports only, and the registry, the store and the invariant are kept. *)
Lemma dispatch_step (i : Input) (s : State) :
  viewInv s ->
  exists new : list Effect,
    effects (stateOf (dispatch i s)) = effects s ++ new /\
    Forall (routedOk s) new /\
    viewInv (stateOf (dispatch i s)) /\
    viewports (stateOf (dispatch i s)) = viewports s /\
    heap (stateOf (dispatch i s)) = heap s.
Proof.
  intros Hinv.
  assert (Hsame : exists new : list Effect,
             effects s = effects s ++ new /\ Forall (routedOk s) new /\
             viewInv s /\ viewports s = viewports s /\ heap s = heap s).
  { exists []. rewrite app_nil_r. repeat split; auto. }
  destruct i as [ev|ev]; simpl.
  - rewrite onPointer_unfold. destruct (system s) as [sys|]; [|exact Hsame].
    pose proof (routeEvent_outcome ev (fst (pointerFlags ev)) (snd (pointerFlags ev)) s Hinv)
      as Hout.
    destruct (routeEvent ev (fst (pointerFlags ev)) (snd (pointerFlags ev)) s)
      as [[ve|] s1|e s1]; simpl; [|subst s1; exact Hsame|subst s1; exact Hsame].
    destruct Hout as (Hvp & logs & -> & Hlogs). simpl.
    exists (logs ++ SystemPointer ve ::
                 (if systemOnPointer sys ve then []
                  else [ViewportPointer (viewport ve) ve])).
    rewrite app_assoc.
    split; [reflexivity|]. split; [|split; [exact Hvp|split; reflexivity]].
    apply Forall_app; split; [now apply quiet_routedOk|].
    apply Forall_cons; [exact Hvp|].
    destruct (systemOnPointer sys ve); [constructor|].
    apply Forall_cons; [exact Hvp|constructor].
  - rewrite onTrigger_unfold. destruct (system s) as [sys|]; [|exact Hsame].
    pose proof (routeEvent_outcome ev true true s Hinv) as Hout.
    destruct (routeEvent ev true true s)
      as [[ve|] s1|e s1]; simpl; [|subst s1; exact Hsame|subst s1; exact Hsame].
    destruct Hout as (Hvp & logs & -> & Hlogs). simpl.
    exists (logs ++ SystemTrigger ve ::
                 (if systemOnTrigger sys ve then []
                  else [ViewportTrigger (viewport ve) ve])).
    rewrite app_assoc.
    split; [reflexivity|]. split; [|split; [exact Hvp|split; reflexivity]].
    apply Forall_app; split; [now apply quiet_routedOk|].
    apply Forall_cons; [exact Hvp|].
    destruct (systemOnTrigger sys ve); [constructor|].
    apply Forall_cons; [exact Hvp|constructor].
Qed.

Lemma routedOk_frame (s s' : State) (e : Effect) :
  viewports s' = viewports s -> heap s' = heap s -> routedOk s' e -> routedOk s e.
Proof.
  unfold routedOk, registeredEnabled. intros -> ->; auto.
Qed.

Lemma processAll_invariant (inputs : list Input) (s : State) :
  viewInv s ->
  exists new : list Effect,
    effects (processAll inputs s) = effects s ++ new /\
    Forall (routedOk s) new /\
    viewInv (processAll inputs s) /\
    viewports (processAll inputs s) = viewports s /\
    heap (processAll inputs s) = heap s.
Proof.
  revert s. induction inputs as [|i rest IH]; intros s Hinv; simpl.
  - exists []. rewrite app_nil_r. repeat split; auto.
  - destruct (dispatch_step i s Hinv) as (new1 & He1 & Hok1 & Hinv1 & Hv1 & Hh1).
    destruct (IH _ Hinv1) as (new2 & He2 & Hok2 & Hinv2 & Hv2 & Hh2).
    exists (new1 ++ new2). rewrite He2, He1, app_assoc.
    repeat split; auto; try congruence.
    apply Forall_app; split; auto.
    revert Hok2. apply Forall_impl. intros e. now apply routedOk_frame.
Qed.

(** An input for which no viewport can be found is dropped: [false] is
    returned and the view is left as it was. *)
Lemma dispatch_unresolved (i : Input) (s : State) :
  (if inputHitTest i then noneContaining s (inputX i) (inputY i)
   else activeViewport s = None) ->
  dispatch i s = Ok false s.
Proof.
  intros Hno.
  assert (Hr : resolveViewport s (inputX i) (inputY i) (inputHitTest i) = None).
  { unfold resolveViewport. destruct (inputHitTest i); auto.
    now apply hitTest_noneContaining. }
  destruct i as [ev|ev]; simpl in *.
  - rewrite onPointer_unfold. destruct (system s); [|reflexivity].
    now rewrite routeEvent_none.
  - rewrite onTrigger_unfold. destruct (system s); [|reflexivity].
    now rewrite routeEvent_none.
Qed.

(** Events only. Whatever sequence of pointer and trigger events a view
    processes with no other call in between, starting with no active viewport
    or an active viewport that is registered and enabled: every routed event
    delivered on the way names a viewport that is registered with the view
    and enabled, the registry and the store are as before, and an event for
    which no viewport can be found (no containing enabled viewport on a hit
    test, no active viewport otherwise) is answered with [false] and
    delivers nothing. *)
Theorem routed_viewport_is_registered_and_enabled (inputs : list Input) (s : State) :
  viewInv s ->
  (exists new : list Effect,
      effects (processAll inputs s) = effects s ++ new /\
      Forall (routedOk s) new) /\
  viewports (processAll inputs s) = viewports s /\
  heap (processAll inputs s) = heap s /\
  forall i : Input,
    (if inputHitTest i
     then noneContaining (processAll inputs s) (inputX i) (inputY i)
     else activeViewport (processAll inputs s) = None) ->
    dispatch i (processAll inputs s) = Ok false (processAll inputs s).
Proof.
  intros Hinv.
  destruct (processAll_invariant inputs s Hinv) as (new & He & Hok & _ & Hv & Hh).
  repeat split; auto.
  - exists new; auto.
  - intros i. apply dispatch_unresolved.
Qed.

Lemma systemPointerEvents_app (l1 l2 : list Effect) :
  systemPointerEvents (l1 ++ l2) = systemPointerEvents l1 ++ systemPointerEvents l2.
Proof.
  induction l1 as [|e l1 IH]; simpl; [reflexivity|].
  destruct e; simpl; rewrite IH; reflexivity.
Qed.


Lemma systemPointerEvents_deliveries (sys : RenderSystem) (ve : IPointerEvent) :
  systemPointerEvents (pointerDeliveries sys ve) = [ve].
Proof.
  unfold pointerDeliveries; simpl. destruct (systemOnPointer sys ve); reflexivity.
Qed.


(** *** The viewport registry *)

Lemma indexOfFrom_absent (l : list ref) (x : ref) (i : Z) :
  ~ In x l -> indexOfFrom l x i = (-1)%Z.
Proof.
  revert i. induction l as [|y rest IH]; intros i Hnot; simpl; [reflexivity|].
  destruct (Nat.eqb_spec y x) as [->|Hne].
  - exfalso; apply Hnot; now left.
  - apply IH. intros Hin; apply Hnot; now right.
Qed.

Lemma indexOfFrom_present (l : list ref) (x : ref) (i : Z) :
  In x l -> (0 <= i)%Z -> (i <= indexOfFrom l x i)%Z.
Proof.
  revert i. induction l as [|y rest IH]; intros i Hin Hi; simpl; [destruct Hin|].
  destruct (Nat.eqb_spec y x) as [->|Hne]; [lia|].
  destruct Hin as [->|Hin]; [congruence|].
  specialize (IH (i + 1)%Z Hin). lia.
Qed.

Lemma indexOf_negative (l : list ref) (x : ref) :
  (indexOf l x <? 0)%Z = true <-> ~ In x l.
Proof.
  unfold indexOf. split.
  - intros Hneg Hin. apply Z.ltb_lt in Hneg.
    pose proof (indexOfFrom_present l x 0 Hin). lia.
  - intros Hnot. now rewrite indexOfFrom_absent.
Qed.

Lemma removeViewport_present (s : State) (vp : ref) :
  In vp (viewports s) -> removeViewport vp s = Ok tt s.
Proof.
  intros Hin. unfold removeViewport.
  destruct (indexOf (viewports s) vp <? 0)%Z eqn:Hneg; [|reflexivity].
  apply indexOf_negative in Hneg. contradiction.
Qed.

Lemma removeViewport_absent (s : State) (vp : ref) :
  ~ In vp (viewports s) -> removeViewport vp s = Throw (Error "viewport not found") s.
Proof.
  intros Hnot. unfold removeViewport.
  apply indexOf_negative in Hnot. now rewrite Hnot.
Qed.

(** C7. Calling [removeViewport] on a registered viewport returns normally
    and changes nothing: the viewport list has the same elements in the same
    order afterwards, the argument included. *)
Theorem removeViewport_keeps_the_list (s : State) (vp : ref) :
  In vp (viewports s) ->
  removeViewport vp s = Ok tt s /\
  viewports (stateOf (removeViewport vp s)) = viewports s /\
  In vp (viewports (stateOf (removeViewport vp s))).
Proof.
  intros Hin. rewrite (removeViewport_present s vp Hin). simpl. auto.
Qed.

(** *** Which methods raise what *)

Lemma only_ret {A : Type} (a : A) : onlyTypeErrors (ret a).
Proof. intros s s' e; discriminate. Qed.

Lemma only_get : onlyTypeErrors get.
Proof. intros s s' e; discriminate. Qed.

Lemma only_modify (f : State -> State) : onlyTypeErrors (modify f).
Proof. intros s s' e; discriminate. Qed.

Lemma only_emit (ef : Effect) : onlyTypeErrors (emit ef).
Proof. intros s s' e; discriminate. Qed.

Lemma only_throw {A : Type} (m : string) : onlyTypeErrors (@throw State A (TypeError m)).
Proof. intros s s' e [= <- _]; eauto. Qed.

Lemma only_theSystem : onlyTypeErrors theSystem.
Proof.
  intros s s' e. unfold theSystem. destruct (system s); [discriminate|].
  intros [= <- _]; eauto.
Qed.

Lemma only_bind {A B : Type} (c : M State A) (k : A -> M State B) :
  onlyTypeErrors c -> (forall a, onlyTypeErrors (k a)) -> onlyTypeErrors (bind c k).
Proof.
  intros Hc Hk s s' e. unfold bind.
  destruct (c s) as [a s1|e1 s1] eqn:Hcs.
  - apply Hk.
  - intros [= <- _]. eapply Hc; eauto.
Qed.

Lemma only_if {A : Type} (b : bool) (c1 c2 : M State A) :
  onlyTypeErrors c1 -> onlyTypeErrors c2 -> onlyTypeErrors (if b then c1 else c2).
Proof. destruct b; auto. Qed.

Create HintDb raises discriminated.
#[local] Hint Resolve only_ret only_get only_modify only_emit only_throw
  only_theSystem only_if : raises.
#[local] Hint Extern 2 (onlyTypeErrors (bind _ _)) =>
  apply only_bind; [|intro] : raises.

Lemma only_renderViewports (scene : Scene) (camera : Camera) (vps : list ref) :
  onlyTypeErrors (renderViewports scene camera vps).
Proof.
  induction vps as [|vp rest IH]; simpl; auto 10 with raises.
Qed.

Lemma only_addViewportsLoop (n : nat) : onlyTypeErrors (addViewportsLoop n).
Proof.
  induction n as [|n IH]; simpl; [auto with raises|].
  apply only_bind; [intros s s' e; discriminate|intro].
  auto with raises.
Qed.

Lemma only_pick (vb : IViewportBaseEvent) : onlyTypeErrors (pick vb).
Proof.
  unfold pick. apply only_bind; [auto with raises|intro sys].
  apply only_bind; [auto with raises|intro s0].
  destruct (activeScene sys); [|auto with raises].
  destruct (activeCamera sys); [|auto with raises].
  cbv zeta. apply only_if; [auto with raises|].
  destruct (getObjectByIndex sys _) as [obj|]; [|auto with raises].
  destruct (userData_component obj); auto with raises.
Qed.

Lemma only_routeEvent {E : Type} `{IManipBaseEvent E} (ev : E) (h p : bool) :
  onlyTypeErrors (routeEvent ev h p).
Proof.
  unfold routeEvent. apply only_bind; [auto with raises|intro s0].
  destruct (resolveViewport s0 (localX ev) (localY ev) h); [|auto with raises].
  apply only_bind; [|intro; auto with raises].
  destruct p; [apply only_pick|auto with raises].
Qed.

Lemma only_onPointer (ev : IManipPointerEvent) : onlyTypeErrors (onPointer ev).
Proof.
  intros s s' e. rewrite onPointer_unfold.
  destruct (system s); [|discriminate].
  destruct (routeEvent ev _ _ s) as [[ve|] s1|e1 s1] eqn:Hre; try discriminate.
  intros [= <- _]. exact (only_routeEvent ev _ _ _ _ _ Hre).
Qed.

Lemma only_onTrigger (ev : IManipTriggerEvent) : onlyTypeErrors (onTrigger ev).
Proof.
  intros s s' e. rewrite onTrigger_unfold.
  destruct (system s); [|discriminate].
  destruct (routeEvent ev _ _ s) as [[ve|] s1|e1 s1] eqn:Hre; try discriminate.
  intros [= <- _]. exact (only_routeEvent ev _ _ _ _ _ Hre).
Qed.

Lemma only_enableViewport (index : Z) (value : bool) :
  onlyTypeErrors (enableViewport index value).
Proof.
  intros s s' e. unfold enableViewport.
  destruct (elementAt (viewports s) index); [discriminate|].
  intros [= <- _]; eauto.
Qed.

(** Every public method but [removeViewport] raises at most a [TypeError]. *)
Lemma only_perform (op : Operation) :
  (forall vp, op <> OpRemoveViewport vp) -> onlyTypeErrors (perform op).
Proof.
  intros Hop. destruct op; simpl; unfold discard.
  - unfold attach. auto 10 with raises.
  - unfold detach. auto with raises.
  - unfold render. apply only_bind; [auto with raises|intro sys].
    destruct (activeScene sys); [|auto with raises].
    destruct (activeCamera sys); [|auto with raises].
    apply only_bind; [auto with raises|intro s0].
    apply only_bind; [auto 10 with raises|intro].
    apply only_bind; [auto with raises|intro].
    apply only_bind; [auto with raises|intro].
    apply only_bind; [auto with raises|intro s1].
    apply only_renderViewports.
  - unfold resize. auto with raises.
  - apply only_bind; [|auto with raises].
    unfold addViewport. apply only_bind; [intros s s' e; discriminate|intro].
    auto with raises.
  - apply only_addViewportsLoop.
  - exfalso. eapply Hop; reflexivity.
  - apply only_enableViewport.
  - apply only_bind; [intros s s' e; discriminate|auto with raises].
  - apply only_bind; [apply only_onPointer|auto with raises].
  - apply only_bind; [apply only_onTrigger|auto with raises].
Qed.

(** C6. [removeViewport] raises the error "viewport not found" exactly when
    its argument is not in the viewport list of the view and raises nothing
    for a viewport that is in it; no other public method of the view raises
    an [Error] of its own: what else can come out of one is a [TypeError] of
    the runtime. *)
Theorem removeViewport_not_found (s : State) :
  (forall vp : ref,
      removeViewport vp s = Throw (Error "viewport not found") s <->
      ~ In vp (viewports s)) /\
  (forall (vp : ref) (e : exn) (s' : State),
      In vp (viewports s) -> removeViewport vp s <> Throw e s') /\
  (forall (op : Operation) (message : string) (s' : State),
      perform op s = Throw (Error message) s' ->
      exists vp : ref,
        op = OpRemoveViewport vp /\ ~ In vp (viewports s) /\
        message = "viewport not found"%string /\ s' = s).
Proof.
  split; [|split].
  - intros vp. split.
    + intros Hthrow Hin. rewrite (removeViewport_present s vp Hin) in Hthrow.
      discriminate.
    + apply removeViewport_absent.
  - intros vp e s' Hin. rewrite (removeViewport_present s vp Hin). discriminate.
  - intros op message s' Hthrow.
    assert (Hcases : (exists vp, op = OpRemoveViewport vp) \/
                     (forall vp, op <> OpRemoveViewport vp))
      by (destruct op; try (right; discriminate); left; eauto).
    destruct Hcases as [(vp & ->)|Hne];
      [|destruct (only_perform op Hne s s' _ Hthrow) as (m & Hm); discriminate].
    exists vp. simpl in Hthrow. unfold removeViewport in Hthrow.
    destruct (indexOf (viewports s) vp <? 0)%Z eqn:Hneg; [|discriminate].
    apply indexOf_negative in Hneg.
    injection Hthrow as <- <-. auto.
Qed.

(** *** Setting a view up

    Only the routing of events writes the active viewport: a view that was
    constructed and then set up through its other methods has none, and so
    satisfies the invariant the routing starts from. *)

Lemma keeps_ret {A : Type} (a : A) : keepsActive (ret a).
Proof. intros s; reflexivity. Qed.

Lemma keeps_get : keepsActive get.
Proof. intros s; reflexivity. Qed.

Lemma keeps_emit (e : Effect) : keepsActive (emit e).
Proof. intros s; reflexivity. Qed.

Lemma keeps_throw {A : Type} (e : exn) : keepsActive (@throw State A e).
Proof. intros s; reflexivity. Qed.

Lemma keeps_theSystem : keepsActive theSystem.
Proof. intros s; unfold theSystem; destruct (system s); reflexivity. Qed.

Lemma keeps_modify (f : State -> State) :
  (forall s, activeViewport (f s) = activeViewport s) -> keepsActive (modify f).
Proof. intros Hf s; apply Hf. Qed.

Lemma keeps_bind {A B : Type} (c : M State A) (k : A -> M State B) :
  keepsActive c -> (forall a, keepsActive (k a)) -> keepsActive (bind c k).
Proof.
  intros Hc Hk s. unfold bind. specialize (Hc s).
  destruct (c s) as [a s1|e s1]; simpl in *; [|exact Hc].
  now rewrite (Hk a s1).
Qed.

Lemma keeps_if {A : Type} (b : bool) (c1 c2 : M State A) :
  keepsActive c1 -> keepsActive c2 -> keepsActive (if b then c1 else c2).
Proof. destruct b; auto. Qed.

Create HintDb frame discriminated.
#[local] Hint Resolve keeps_ret keeps_get keeps_emit keeps_throw keeps_theSystem
  keeps_if : frame.
#[local] Hint Extern 2 (keepsActive (bind _ _)) => apply keeps_bind; [|intro] : frame.
#[local] Hint Extern 2 (keepsActive (modify _)) =>
  apply keeps_modify; intro; reflexivity : frame.

Lemma keeps_renderViewports (scene : Scene) (camera : Camera) (vps : list ref) :
  keepsActive (renderViewports scene camera vps).
Proof.
  induction vps as [|vp rest IH]; simpl; auto 10 with frame.
Qed.

Lemma keeps_newViewport : keepsActive newViewport.
Proof. intros s; reflexivity. Qed.

Lemma keeps_addViewportsLoop (n : nat) : keepsActive (addViewportsLoop n).
Proof.
  induction n as [|n IH]; simpl; [auto with frame|].
  apply keeps_bind; [apply keeps_newViewport|intro]. auto with frame.
Qed.

Lemma perform_keepsActive (op : Operation) :
  isInput op = false -> keepsActive (perform op).
Proof.
  destruct op as [| | | | |count|vp|index value| |ev|ev];
    simpl; try discriminate; intros _; unfold discard.
  - unfold attach. auto 10 with frame.
  - unfold detach. auto with frame.
  - unfold render. apply keeps_bind; [auto with frame|intro sys].
    destruct (activeScene sys); [|auto with frame].
    destruct (activeCamera sys); [|auto with frame].
    apply keeps_bind; [auto with frame|intro s0].
    apply keeps_bind; [auto 10 with frame|intro].
    apply keeps_bind; [auto with frame|intro].
    apply keeps_bind; [auto with frame|intro].
    apply keeps_bind; [auto with frame|intro s1].
    apply keeps_renderViewports.
  - unfold resize. auto with frame.
  - apply keeps_bind; [|auto with frame].
    unfold addViewport. apply keeps_bind; [apply keeps_newViewport|intro].
    auto with frame.
  - apply keeps_addViewportsLoop.
  - intros s. unfold removeViewport.
    destruct (indexOf (viewports s) vp <? 0)%Z; reflexivity.
  - intros s. unfold enableViewport.
    destruct (elementAt (viewports s) index); reflexivity.
  - apply keeps_bind; [intros s; reflexivity|auto with frame].
Qed.

(** A view that was constructed and set up by any calls of its methods
    other than the two input handlers satisfies the invariant. *)
Lemma setup_satisfies_invariant (ops : list Operation) (sys : option RenderSystem)
  (pk : Picker) (cv : Canvas) (hp : ref -> Viewport) (next : ref) :
  forallb (fun op => negb (isInput op)) ops = true ->
  viewInv (performAll ops (create sys pk cv hp next)).
Proof.
  intros Hops.
  assert (Hnone : forall s, activeViewport s = None ->
                            activeViewport (performAll ops s) = None).
  { induction ops as [|op rest IH]; intros s Hs; simpl; [exact Hs|].
    simpl in Hops. apply andb_true_iff in Hops. destruct Hops as (Hop & Hrest).
    apply IH; [exact Hrest|].
    rewrite perform_keepsActive; [exact Hs|].
    now apply negb_true_iff in Hop. }
  unfold viewInv. now rewrite Hnone.
Qed.

(** *** Dispatch *)

(** C8. A routed event that [onPointer] or [onTrigger] has built is handed to
    the render system first and then to the viewport of the event, the
    latter exactly when the render system has left [stopPropagation] unset;
    the method then returns [true]. A call that returns gives [true] exactly
    when a routed event was built, and [false], with nothing delivered, when
    the view has no system or [routeEvent] returned [null]. *)
Theorem dispatch_system_then_viewport (s : State) :
  (forall (ev : IManipPointerEvent) (sys : RenderSystem) (ve : IPointerEvent) (s1 : State),
      system s = Some sys ->
      routeEvent ev (fst (pointerFlags ev)) (snd (pointerFlags ev)) s = Ok (Some ve) s1 ->
      exists s' : State,
        onPointer ev s = Ok true s' /\
        effects s' =
        effects s1 ++
        SystemPointer ve ::
        (if systemOnPointer sys ve then [] else [ViewportPointer (viewport ve) ve])) /\
  (forall (ev : IManipPointerEvent) (b : bool) (s' : State),
      onPointer ev s = Ok b s' ->
      (b = true <->
       exists (sys : RenderSystem) (ve : IPointerEvent) (s1 : State),
         system s = Some sys /\
         routeEvent ev (fst (pointerFlags ev)) (snd (pointerFlags ev)) s
         = Ok (Some ve) s1) /\
      (b = false -> s' = s)) /\
  (forall (ev : IManipTriggerEvent) (sys : RenderSystem) (ve : ITriggerEvent) (s1 : State),
      system s = Some sys ->
      routeEvent ev true true s = Ok (Some ve) s1 ->
      exists s' : State,
        onTrigger ev s = Ok true s' /\
        effects s' =
        effects s1 ++
        SystemTrigger ve ::
        (if systemOnTrigger sys ve then [] else [ViewportTrigger (viewport ve) ve])) /\
  (forall (ev : IManipTriggerEvent) (b : bool) (s' : State),
      onTrigger ev s = Ok b s' ->
      (b = true <->
       exists (sys : RenderSystem) (ve : ITriggerEvent) (s1 : State),
         system s = Some sys /\ routeEvent ev true true s = Ok (Some ve) s1) /\
      (b = false -> s' = s)).
Proof.
  assert (Hnone : forall (E : Type) (HE : IManipBaseEvent E) (ev : E) (h p : bool)
                         (s1 : State),
             routeEvent ev h p s = Ok None s1 -> s1 = s).
  { intros E HE ev h p s1 Hre.
    destruct (resolveViewport s (localX ev) (localY ev) h) as [vp|] eqn:Hr.
    - destruct (routeEvent_some ev h p s vp Hr)
        as [(ve & s' & logs & Hre' & _)|(_ & e & Hre')]; congruence.
    - rewrite routeEvent_none in Hre by exact Hr. congruence. }
  split; [|split; [|split]].
  - intros ev sys ve s1 Hsys Hre. rewrite onPointer_unfold, Hsys, Hre.
    eexists; split; reflexivity.
  - intros ev b s' Hon. rewrite onPointer_unfold in Hon.
    destruct (system s) as [sys|] eqn:Hsys.
    + destruct (routeEvent ev _ _ s) as [[ve|] s1|e s1] eqn:Hre; try discriminate;
        injection Hon as <- <-.
      * split; [split; [intros _; eauto 6|reflexivity]|discriminate].
      * split; [split; [discriminate|]|intros _; exact (Hnone _ _ _ _ _ _ Hre)].
        intros (sys' & ve & s1' & _ & Hre'). discriminate.
    + injection Hon as <- <-.
      split; [split; [discriminate|]|reflexivity].
      intros (sys & _ & _ & Hsys' & _). discriminate.
  - intros ev sys ve s1 Hsys Hre. rewrite onTrigger_unfold, Hsys, Hre.
    eexists; split; reflexivity.
  - intros ev b s' Hon. rewrite onTrigger_unfold in Hon.
    destruct (system s) as [sys|] eqn:Hsys.
    + destruct (routeEvent ev _ _ s) as [[ve|] s1|e s1] eqn:Hre; try discriminate;
        injection Hon as <- <-.
      * split; [split; [intros _; eauto 6|reflexivity]|discriminate].
      * split; [split; [discriminate|]|intros _; exact (Hnone _ _ _ _ _ _ Hre)].
        intros (sys' & ve & s1' & _ & Hre'). discriminate.
    + injection Hon as <- <-.
      split; [split; [discriminate|]|reflexivity].
      intros (sys & _ & _ & Hsys' & _). discriminate.
Qed.

(** *** A hit test that finds nothing *)

(** C9, as the code has it. A call of [routeEvent] with [doHitTest] does not
    look at the active viewport: when no enabled viewport contains the
    coordinates it returns [null] whatever the active viewport is, and it
    leaves the active viewport, object and component of the view as they
    were. An event routed afterwards without a hit test therefore goes to
    that earlier active viewport with the earlier object and component, and
    is dropped only when there was no active viewport. *)
Theorem failed_hit_test_keeps_active_state
  {E : Type} `{IManipBaseEvent E} (ev : E) (doPick : bool) (s : State) :
  noneContaining s (localX ev) (localY ev) ->
  routeEvent ev true doPick s = Ok None s /\
  (forall (E' : Type) (H' : IManipBaseEvent E') (ev' : E') (vp : ref),
      activeViewport s = Some vp ->
      exists (ve : IBaseEvent E') (s' : State),
        routeEvent ev' false false (stateOf (routeEvent ev true doPick s))
        = Ok (Some ve) s' /\
        viewport ve = vp /\
        object3D ve = activeObject3D s /\
        component ve = activeComponent s) /\
  (forall (E' : Type) (H' : IManipBaseEvent E') (ev' : E'),
      activeViewport s = None ->
      routeEvent ev' false false (stateOf (routeEvent ev true doPick s)) = Ok None s).
Proof.
  intros Hn.
  assert (Hre : routeEvent ev true doPick s = Ok None s)
    by (apply routeEvent_none; now apply hitTest_noneContaining).
  rewrite Hre. simpl. repeat split.
  - intros E' H' ev' vp Hact.
    rewrite routeEvent_unfold. unfold resolveViewport. rewrite Hact.
    do 2 eexists; split; [reflexivity|]. simpl. auto.
  - intros E' H' ev' Hact. apply routeEvent_none. exact Hact.
Qed.

(** *** Rendering and resizing *)

Lemma store_same (r : ref) (v : Viewport) (hp : ref -> Viewport) : store r v hp r = v.
Proof. unfold store. now rewrite Nat.eqb_refl. Qed.

Lemma store_other (r r' : ref) (v : Viewport) (hp : ref -> Viewport) :
  r' <> r -> store r v hp r' = hp r'.
Proof.
  intros Hne. unfold store. destruct (Nat.eqb_spec r' r); [contradiction|reflexivity].
Qed.

(** Passing the canvas size to the viewports keeps their [enabled] flags, and
    does not touch a viewport that is not in the list. *)
Lemma resizeViewports_enabled (w h : float) (vps : list ref) (hp : ref -> Viewport)
  (r : ref) :
  enabled (resizeViewports w h vps hp r) = enabled (hp r).
Proof.
  unfold resizeViewports. revert hp.
  induction vps as [|v rest IH]; intros hp; simpl; [reflexivity|].
  rewrite IH. unfold store. destruct (Nat.eqb_spec r v) as [->|]; reflexivity.
Qed.

Lemma resizeViewports_other (w h : float) (vps : list ref) (hp : ref -> Viewport)
  (r : ref) :
  ~ In r vps -> resizeViewports w h vps hp r = hp r.
Proof.
  unfold resizeViewports. revert hp.
  induction vps as [|v rest IH]; intros hp Hnot; simpl; [reflexivity|].
  rewrite IH by (intros Hin; apply Hnot; now right).
  apply store_other. intros ->. apply Hnot; now left.
Qed.

Lemma resizeViewports_once (w h : float) (vps : list ref) (hp : ref -> Viewport)
  (r : ref) :
  NoDup vps -> In r vps ->
  geometry (resizeViewports w h vps hp r) = setCanvasSize w h (geometry (hp r)).
Proof.
  unfold resizeViewports. revert hp.
  induction vps as [|v rest IH]; intros hp Hnd Hin; simpl; [destruct Hin|].
  inversion Hnd as [|v' rest' Hv Hrest]; subst.
  destruct Hin as [->|Hin].
  - fold (resizeViewports w h rest
            (store r {| enabled := enabled (hp r);
                        geometry := setCanvasSize w h (geometry (hp r)) |} hp)).
    rewrite resizeViewports_other by exact Hv. now rewrite store_same.
  - rewrite IH by assumption.
    rewrite store_other; [reflexivity|]. intros ->. contradiction.
Qed.

(** The loop of [render]: it never throws, draws the enabled viewports of the
    list in order, and writes nothing but the trace and the viewport of the
    render context. *)
Lemma renderViewports_trace (scene : Scene) (camera : Camera) (vps : list ref) (s : State) :
  ctx_scene (context s) = Some scene ->
  ctx_camera (context s) = Some camera ->
  exists s' : State,
    renderViewports scene camera vps s = Ok tt s' /\
    effects s' =
    effects s ++
    flat_map (fun vp => if enabled (heap s vp) then renderSteps scene camera vp else [])
             vps /\
    heap s' = heap s /\ viewports s' = viewports s /\
    selection s' = selection s /\ shouldResize s' = shouldResize s /\
    canvas s' = canvas s /\ nextRef s' = nextRef s /\
    ctx_scene (context s') = Some scene /\ ctx_camera (context s') = Some camera /\
    system s' = system s.
Proof.
  revert s. induction vps as [|vp rest IH]; intros s Hsc Hcam.
  - exists s. simpl. rewrite app_nil_r. repeat split; auto.
  - simpl. unfold bind at 1. unfold get.
    destruct (enabled (heap s vp)) eqn:Hen.
    + set (ctx := {| ctx_viewport := Some vp;
                     ctx_scene := ctx_scene (context s);
                     ctx_camera := ctx_camera (context s) |}).
      set (s1 := setEffects
                   (effects s ++
                    [SystemPreRender ctx; ViewportApply vp;
                     RendererRender scene camera vp; SystemPostRender ctx])
                   (setContext ctx s)).
      assert (Hrun : bind (bind (modify (setContext ctx))
                             (fun _ => bind (emit (SystemPreRender ctx))
                               (fun _ => bind (emit (ViewportApply vp))
                                 (fun _ => bind (emit (RendererRender scene camera vp))
                                   (fun _ => emit (SystemPostRender ctx))))))
                        (fun _ => renderViewports scene camera rest) s
                     = renderViewports scene camera rest s1).
      { unfold bind, modify, emit, s1. simpl. rewrite <- !app_assoc. reflexivity. }
      rewrite Hrun.
      destruct (IH s1 Hsc Hcam)
        as (s' & Hok & Heff & Hheap & Hvps & Hsel & Hres & Hcv & Hnext & Hsc' & Hcam'
            & Hsys).
      exists s'. split; [exact Hok|]. rewrite Heff.
      subst s1 ctx. simpl. rewrite Hsc, Hcam, <- app_assoc.
      repeat split; auto.
    + unfold bind at 1. unfold ret.
      destruct (IH s Hsc Hcam)
        as (s' & Hok & Heff & Hrest).
      exists s'. split; [exact Hok|]. split; [exact Heff|exact Hrest].
Qed.

(** X1. [render] on a view whose render system has no active scene or no
    active camera writes the warning to the console and does nothing else:
    nothing is cleared or drawn, and a pending resize stays pending. *)
Theorem render_without_scene_or_camera (s : State) (sys : RenderSystem) :
  system s = Some sys ->
  activeScene sys = None \/ activeCamera sys = None ->
  render s = Ok tt (setEffects (effects s ++ [ConsoleWarn "scene and/or camera missing"]) s) /\
  shouldResize (stateOf (render s)) = shouldResize s /\
  canvas (stateOf (render s)) = canvas s.
Proof.
  intros Hsys Hmiss.
  assert (Hr : render s =
               Ok tt (setEffects (effects s ++ [ConsoleWarn "scene and/or camera missing"]) s)).
  { unfold render, bind at 1, theSystem. rewrite Hsys.
    destruct Hmiss as [->| ->]; [reflexivity|].
    destruct (activeScene sys); reflexivity. }
  rewrite Hr. repeat split.
Qed.

(** X2. With an active scene and camera, [render] returns normally, issues
    one resize of the renderer if a resize was pending, clears once, and then
    runs its drawing steps for exactly the enabled viewports of the registry,
    in registration order: the render system's pre-render call with the
    context naming the viewport, the viewport's set-up, the renderer's draw
    for the viewport, the post-render call. A disabled viewport gets none of
    these steps. It is not left alone, though: when a resize was pending,
    [setCanvasSize] has been called on every registered viewport, enabled or
    not, and the store is what these calls make of it; without a pending
    resize the store is untouched. The registry, the enabled flags and the
    active selection stay as they were. *)
Theorem render_draws_enabled_viewports (s : State) (sys : RenderSystem)
  (scene : Scene) (camera : Camera) :
  system s = Some sys ->
  activeScene sys = Some scene ->
  activeCamera sys = Some camera ->
  exists s' : State,
    render s = Ok tt s' /\
    effects s' =
    effects s ++
    (if shouldResize s
     then [RendererSetSize (clientWidth (canvas s)) (clientHeight (canvas s))]
     else []) ++
    RendererClear :: renderTrace s scene camera /\
    viewports s' = viewports s /\
    (forall r : ref, enabled (heap s' r) = enabled (heap s r)) /\
    selection s' = selection s /\
    heap s' =
    (if shouldResize s
     then resizeViewports (clientWidth (canvas s)) (clientHeight (canvas s))
            (viewports s) (heap s)
     else heap s) /\
    (shouldResize s = true ->
     NoDup (viewports s) ->
     forall r : ref,
       In r (viewports s) ->
       geometry (heap s' r) =
       setCanvasSize (clientWidth (canvas s)) (clientHeight (canvas s))
                     (geometry (heap s r))).
Proof.
  intros Hsys Hsc Hcam.
  unfold render, bind at 1, theSystem. rewrite Hsys, Hsc, Hcam.
  unfold bind at 1, get.
  destruct (shouldResize s) eqn:Hres.
  - set (w := clientWidth (canvas s)). set (h := clientHeight (canvas s)).
    set (s1 := setEffects (effects s ++ [RendererSetSize w h; RendererClear])
                 (setContext {| ctx_viewport := ctx_viewport (context s);
                                ctx_scene := Some scene; ctx_camera := Some camera |}
                    (setHeap (resizeViewports w h (viewports s) (heap s)) (nextRef s)
                       (setCanvas {| width := w; height := h;
                                     clientWidth := w; clientHeight := h |}
                          (setShouldResize false s))))).
    destruct (renderViewports_trace scene camera (viewports s) s1 eq_refl eq_refl)
      as (s' & Hok & Heff & Hheap & Hvps & Hsel & _).
    exists s'. split.
    + rewrite <- Hok. unfold bind, modify, emit, get, s1. simpl.
      rewrite <- !app_assoc. reflexivity.
    + rewrite Heff, Hheap, Hvps, Hsel. subst s1. simpl.
      rewrite <- !app_assoc. simpl.
      split; [|split; [reflexivity|split; [|split; [reflexivity|split; [reflexivity|]]]]].
      * unfold renderTrace. do 3 f_equal.
        apply flat_map_ext. intros vp. now rewrite resizeViewports_enabled.
      * intros r. apply resizeViewports_enabled.
      * intros _ Hnd r Hin. now apply resizeViewports_once.
  - set (s1 := setEffects (effects s ++ [RendererClear])
                 (setContext {| ctx_viewport := ctx_viewport (context s);
                                ctx_scene := Some scene; ctx_camera := Some camera |} s)).
    destruct (renderViewports_trace scene camera (viewports s) s1 eq_refl eq_refl)
      as (s' & Hok & Heff & Hheap & Hvps & Hsel & _).
    exists s'. split.
    + rewrite <- Hok. reflexivity.
    + rewrite Heff, Hheap, Hvps, Hsel. subst s1. simpl.
      rewrite <- !app_assoc.
      split; [reflexivity|]. split; [reflexivity|]. split; [reflexivity|].
      split; [reflexivity|]. split; [reflexivity|]. discriminate.
Qed.

(** The state [render] reaches when scene and camera are there. *)
Lemma render_state (s : State) (sys : RenderSystem) (scene : Scene) (camera : Camera) :
  system s = Some sys ->
  activeScene sys = Some scene ->
  activeCamera sys = Some camera ->
  exists s' : State,
    render s = Ok tt s' /\
    system s' = system s /\ shouldResize s' = false /\
    viewports s' = viewports s /\ nextRef s' = nextRef s /\
    canvas s' =
    (if shouldResize s
     then {| width := clientWidth (canvas s); height := clientHeight (canvas s);
             clientWidth := clientWidth (canvas s);
             clientHeight := clientHeight (canvas s) |}
     else canvas s) /\
    heap s' =
    (if shouldResize s
     then resizeViewports (clientWidth (canvas s)) (clientHeight (canvas s))
            (viewports s) (heap s)
     else heap s).
Proof.
  intros Hsys Hsc Hcam.
  unfold render, bind at 1, theSystem. rewrite Hsys, Hsc, Hcam.
  unfold bind at 1, get.
  destruct (shouldResize s) eqn:Hres.
  - set (w := clientWidth (canvas s)). set (h := clientHeight (canvas s)).
    set (s1 := setEffects (effects s ++ [RendererSetSize w h; RendererClear])
                 (setContext {| ctx_viewport := ctx_viewport (context s);
                                ctx_scene := Some scene; ctx_camera := Some camera |}
                    (setHeap (resizeViewports w h (viewports s) (heap s)) (nextRef s)
                       (setCanvas {| width := w; height := h;
                                     clientWidth := w; clientHeight := h |}
                          (setShouldResize false s))))).
    destruct (renderViewports_trace scene camera (viewports s) s1 eq_refl eq_refl)
      as (s' & Hok & _ & Hheap & Hvps & _ & Hsr & Hcv & Hnext & _ & _ & Hsy).
    exists s'. split.
    + rewrite <- Hok. unfold bind, modify, emit, get, s1. simpl.
      rewrite <- !app_assoc. reflexivity.
    + rewrite Hsy, Hsr, Hvps, Hnext, Hcv, Hheap. repeat split; exact Hsys.
  - set (s1 := setEffects (effects s ++ [RendererClear])
                 (setContext {| ctx_viewport := ctx_viewport (context s);
                                ctx_scene := Some scene; ctx_camera := Some camera |} s)).
    destruct (renderViewports_trace scene camera (viewports s) s1 eq_refl eq_refl)
      as (s' & Hok & _ & Hheap & Hvps & _ & Hsr & Hcv & Hnext & _ & _ & Hsy).
    exists s'. split.
    + rewrite <- Hok. reflexivity.
    + rewrite Hsy, Hsr, Hvps, Hnext, Hcv, Hheap. subst s1; simpl. repeat split; auto.
Qed.

(** X3. [resize] only asks for a resize; the next [render] with a scene and
    a camera carries it out: the canvas takes its client size, every
    registered viewport is given that size once, viewports outside the
    registry are not touched, and the request is cleared, so that the render
    after that one resizes nothing. *)
Theorem resize_is_applied_by_the_next_render (s : State) (sys : RenderSystem)
  (scene : Scene) (camera : Camera) :
  system s = Some sys ->
  activeScene sys = Some scene ->
  activeCamera sys = Some camera ->
  NoDup (viewports s) ->
  heap (stateOf (resize s)) = heap s /\
  canvas (stateOf (resize s)) = canvas s /\
  exists s1 s2 : State,
    render (stateOf (resize s)) = Ok tt s1 /\
    shouldResize s1 = false /\
    width (canvas s1) = clientWidth (canvas s) /\
    height (canvas s1) = clientHeight (canvas s) /\
    (forall r : ref,
        In r (viewports s) ->
        geometry (heap s1 r) =
        setCanvasSize (clientWidth (canvas s)) (clientHeight (canvas s))
                      (geometry (heap s r))) /\
    (forall r : ref, ~ In r (viewports s) -> heap s1 r = heap s r) /\
    render s1 = Ok tt s2 /\
    canvas s2 = canvas s1 /\ heap s2 = heap s1.
Proof.
  intros Hsys Hsc Hcam Hnd. split; [reflexivity|]. split; [reflexivity|].
  destruct (render_state (stateOf (resize s)) sys scene camera Hsys Hsc Hcam)
    as (s1 & Hr1 & Hsy1 & Hsr1 & Hv1 & _ & Hc1 & Hh1).
  simpl in Hsy1, Hv1, Hc1, Hh1.
  assert (Hsys1 : system s1 = Some sys) by congruence.
  destruct (render_state s1 sys scene camera Hsys1 Hsc Hcam)
    as (s2 & Hr2 & _ & _ & _ & _ & Hc2 & Hh2).
  rewrite Hsr1 in Hc2, Hh2.
  exists s1, s2. rewrite Hc1, Hh1. simpl.
  repeat split; auto; try congruence.
  - intros r Hin. now apply resizeViewports_once.
  - intros r Hnot. now apply resizeViewports_other.
Qed.

(** *** The registry *)

Lemma addViewportsLoop_spec (n : nat) (s : State) :
  exists s' : State,
    addViewportsLoop n s = Ok tt s' /\
    viewports s' = viewports s ++ seq (nextRef s) n /\
    nextRef s' = nextRef s + n /\
    (forall r : ref, r < nextRef s -> heap s' r = heap s r) /\
    (forall r : ref, nextRef s <= r < nextRef s + n -> heap s' r = freshViewport) /\
    selection s' = selection s /\ effects s' = effects s /\ system s' = system s.
Proof.
  revert s. induction n as [|n IH]; intros s.
  - exists s. simpl. rewrite app_nil_r, Nat.add_0_r.
    repeat split; auto. intros r Hr; lia.
  - set (s1 := setViewports (viewports s ++ [nextRef s])
                 (setHeap (store (nextRef s) freshViewport (heap s)) (S (nextRef s)) s)).
    destruct (IH s1) as (s' & Hok & Hv & Hn & Hold & Hnew & Hsel & Heff & Hsys).
    exists s'. split; [exact Hok|].
    rewrite Hv, Hn, Hsel, Heff, Hsys. subst s1. simpl in *.
    rewrite <- app_assoc. simpl.
    repeat split; auto; try lia.
    + intros r Hr. rewrite Hold by lia. apply store_other. lia.
    + intros r Hr. destruct (Nat.eq_dec r (nextRef s)) as [->|Hne].
      * rewrite Hold by lia. apply store_same.
      * apply Hnew. lia.
Qed.

(** X4. [addViewports(count)] never throws and appends [count] fresh
    viewports to the registry, none for a count below 1: the earlier entries
    keep their places and their objects, the new ones are newly constructed
    viewports, and [getViewportCount] grows by the count. [addViewport] does
    the same for one viewport and returns it. *)
Theorem addViewports_appends_fresh_viewports (count : Z) (s : State) :
  exists s' : State,
    addViewports count s = Ok tt s' /\
    viewports s' = viewports s ++ seq (nextRef s) (Z.to_nat count) /\
    getViewportCount s' =
    Ok (Z.of_nat (List.length (viewports s)) + Z.max 0 count)%Z s' /\
    (forall r : ref, r < nextRef s -> heap s' r = heap s r) /\
    (forall r : ref,
        nextRef s <= r < nextRef s + Z.to_nat count -> heap s' r = freshViewport) /\
    selection s' = selection s /\
    exists s1 : State,
      addViewport s = Ok (nextRef s) s1 /\
      viewports s1 = viewports s ++ [nextRef s] /\
      heap s1 (nextRef s) = freshViewport.
Proof.
  destruct (addViewportsLoop_spec (Z.to_nat count) s)
    as (s' & Hok & Hv & _ & Hold & Hnew & Hsel & _).
  exists s'. split; [exact Hok|]. split; [exact Hv|].
  split; [|split; [exact Hold|split; [exact Hnew|split; [exact Hsel|]]]].
  - unfold getViewportCount. rewrite Hv, length_app, length_seq. f_equal. lia.
  - eexists. split; [reflexivity|]. simpl. split; [reflexivity|apply store_same].
Qed.

Lemma keeps_bind_gen {X A B : Type} (f : State -> X) (c : M State A) (k : A -> M State B) :
  keeps f c -> (forall a, keeps f (k a)) -> keeps f (bind c k).
Proof.
  intros Hc Hk s. unfold bind. specialize (Hc s).
  destruct (c s) as [a s1|e s1]; simpl in *; [|exact Hc].
  now rewrite (Hk a s1).
Qed.

Ltac frame :=
  cbv zeta;
  repeat first
    [ apply keeps_bind_gen; [|intro]
    | solve [intros ?; reflexivity]
    | solve [intros ?; unfold theSystem; destruct (system _); reflexivity]
    | match goal with
      | |- keeps _ (match ?x with _ => _ end) => destruct x
      end ].

Lemma registry_renderViewports (scene : Scene) (camera : Camera) (vps : list ref) :
  keeps registry (renderViewports scene camera vps).
Proof.
  induction vps as [|vp rest IH]; simpl; [frame|].
  apply keeps_bind_gen; [frame|intro s0].
  apply keeps_bind_gen; [frame|intro]. exact IH.
Qed.

Lemma registry_routeEvent {E : Type} `{IManipBaseEvent E} (ev : E) (h p : bool) :
  keeps registry (routeEvent ev h p).
Proof. unfold routeEvent, pick. frame. Qed.

Lemma registry_onPointer (ev : IManipPointerEvent) : keeps registry (onPointer ev).
Proof.
  intros s. unfold onPointer. destruct (system s) as [sys|]; [|reflexivity].
  revert s. apply keeps_bind_gen; [apply registry_routeEvent|intro]. frame.
Qed.

Lemma registry_onTrigger (ev : IManipTriggerEvent) : keeps registry (onTrigger ev).
Proof.
  intros s. unfold onTrigger. destruct (system s) as [sys|]; [|reflexivity].
  revert s. apply keeps_bind_gen; [apply registry_routeEvent|intro]. frame.
Qed.

(** Only [addViewport] and [addViewports] write the registry. *)
Lemma perform_registry (op : Operation) :
  match op with
  | OpAddViewport | OpAddViewports _ => True
  | _ => keeps registry (perform op)
  end.
Proof.
  destruct op as [| | | | |count|vp|index value| |ev|ev]; simpl; trivial; unfold discard.
  - unfold attach. frame.
  - unfold detach. frame.
  - unfold render. apply keeps_bind_gen; [frame|intro sys].
    destruct (activeScene sys); [|frame]. destruct (activeCamera sys); [|frame].
    apply keeps_bind_gen; [frame|intro s0].
    apply keeps_bind_gen; [frame|intro].
    apply keeps_bind_gen; [frame|intro].
    apply keeps_bind_gen; [frame|intro].
    apply keeps_bind_gen; [frame|intro s1].
    apply registry_renderViewports.
  - unfold resize. frame.
  - intros s. unfold removeViewport.
    destruct (indexOf (viewports s) vp <? 0)%Z; reflexivity.
  - intros s. unfold enableViewport.
    destruct (elementAt (viewports s) index); reflexivity.
  - frame.
  - apply keeps_bind_gen; [apply registry_onPointer|intro]. frame.
  - apply keeps_bind_gen; [apply registry_onTrigger|intro]. frame.
Qed.

Lemma registryOk_append (s s' : State) (n : nat) :
  registryOk s ->
  viewports s' = viewports s ++ seq (nextRef s) n ->
  nextRef s' = nextRef s + n ->
  registryOk s'.
Proof.
  intros (Hal & Hnd) Hv Hn. unfold registryOk, allocated. rewrite Hv, Hn. split.
  - intros r Hin. apply in_app_or in Hin. destruct Hin as [Hin|Hin].
    + specialize (Hal r Hin). lia.
    + apply in_seq in Hin. lia.
  - apply NoDup_app; [exact Hnd|apply seq_NoDup|].
    intros r Hin Hseq. specialize (Hal r Hin). apply in_seq in Hseq. lia.
Qed.

Lemma perform_registryOk (op : Operation) (s : State) :
  registryOk s ->
  registryOk (stateOf (perform op s)) /\
  prefixOf (viewports s) (viewports (stateOf (perform op s))).
Proof.
  intros Hok.
  assert (Hkeep : keeps registry (perform op) ->
                  registryOk (stateOf (perform op s)) /\
                  prefixOf (viewports s) (viewports (stateOf (perform op s)))).
  { intros Hk. specialize (Hk s). unfold registry in Hk. injection Hk as Hv Hn.
    split.
    - unfold registryOk, allocated. rewrite Hv, Hn. exact Hok.
    - exists []. rewrite Hv. now rewrite app_nil_r. }
  pose proof (perform_registry op) as Hop.
  destruct op as [| | | | |count|vp|index value| |ev|ev]; try (apply Hkeep; exact Hop).
  - destruct (addViewportsLoop_spec 1 s) as (s' & Hrun & Hv & Hn & _).
    assert (Hst : stateOf (perform OpAddViewport s) = s').
    { simpl in Hrun. unfold bind, newViewport, modify, ret in Hrun.
      injection Hrun as <-. reflexivity. }
    rewrite Hst. split; [eapply registryOk_append; eauto|].
    eexists; exact Hv.
  - destruct (addViewportsLoop_spec (Z.to_nat count) s) as (s' & Hrun & Hv & Hn & _).
    simpl. unfold addViewports. rewrite Hrun. simpl.
    split; [eapply registryOk_append; eauto|]. eexists; exact Hv.
Qed.

(** X5. Along any run of calls of the view's public methods, starting from a
    registry of distinct allocated viewports, the registry stays one, and it
    only grows at its end: what was registered stays registered at the same
    position, so the viewport count never goes down. *)
Theorem registry_only_grows (ops : list Operation) (s : State) :
  registryOk s ->
  registryOk (performAll ops s) /\
  prefixOf (viewports s) (viewports (performAll ops s)) /\
  List.length (viewports s) <= List.length (viewports (performAll ops s)).
Proof.
  revert s. induction ops as [|op rest IH]; intros s Hok; simpl.
  - split; [exact Hok|]. split; [exists []; now rewrite app_nil_r|lia].
  - destruct (perform_registryOk op s Hok) as (Hok1 & more1 & Hv1).
    destruct (IH _ Hok1) as (Hok2 & (more2 & Hv2) & Hlen).
    split; [exact Hok2|]. split.
    + exists (more1 ++ more2). rewrite Hv2, Hv1. now rewrite app_assoc.
    + rewrite Hv1, length_app in Hlen. lia.
Qed.

Lemma elementAt_range {A : Type} (l : list A) (index : Z) :
  elementAt l index = None <-> (index < 0 \/ Z.of_nat (List.length l) <= index)%Z.
Proof.
  unfold elementAt. destruct (index <? 0)%Z eqn:Hneg.
  - apply Z.ltb_lt in Hneg. split; auto.
  - apply Z.ltb_ge in Hneg. rewrite nth_error_None. split; intros H.
    + right. lia.
    + destruct H; lia.
Qed.

(** X6. [enableViewport(index, enabled)] raises a [TypeError] and changes
    nothing exactly when the index is outside the registry (below 0 or at
    least the viewport count, so always on an empty registry). Inside it, it
    sets the flag of the viewport at that index and leaves its geometry, the
    other viewports, the registry and the active selection as they were. *)
Theorem enableViewport_index_bounds (index : Z) (value : bool) (s : State) :
  ((index < 0 \/ Z.of_nat (List.length (viewports s)) <= index)%Z ->
   exists m : string, enableViewport index value s = Throw (TypeError m) s) /\
  ((0 <= index < Z.of_nat (List.length (viewports s)))%Z ->
   exists (r : ref) (s' : State),
     nth_error (viewports s) (Z.to_nat index) = Some r /\
     enableViewport index value s = Ok tt s' /\
     enabled (heap s' r) = value /\
     geometry (heap s' r) = geometry (heap s r) /\
     (forall r' : ref, r' <> r -> heap s' r' = heap s r') /\
     viewports s' = viewports s /\
     selection s' = selection s).
Proof.
  split.
  - intros Hout. apply elementAt_range in Hout.
    unfold enableViewport. rewrite Hout. eauto.
  - intros Hin. unfold enableViewport.
    destruct (elementAt (viewports s) index) as [r|] eqn:He.
    + exists r. eexists. split.
      * unfold elementAt in He. destruct (index <? 0)%Z; [discriminate|exact He].
      * split; [reflexivity|]. simpl. rewrite store_same. simpl.
        repeat split; auto. intros r' Hne. now apply store_other.
    + apply elementAt_range in He. lia.
Qed.

(** X7. A viewport that has been disabled with [enableViewport] is passed over
    by every hit test: no event routed with [doHitTest] afterwards names it,
    wherever the event lies, and [onTrigger], which always hit-tests,
    delivers nothing that names it. *)
Theorem disabled_viewport_is_never_hit
  {E : Type} `{IManipBaseEvent E} (index : Z) (r : ref) (s : State) :
  elementAt (viewports s) index = Some r ->
  (forall (ev : E) (doPick : bool) (ve : IBaseEvent E) (s' : State),
      routeEvent ev true doPick (stateOf (enableViewport index false s)) = Ok (Some ve) s' ->
      viewport ve <> r) /\
  (forall (ev : IManipTriggerEvent) (b : bool) (s' : State) (e : Effect),
      onTrigger ev (stateOf (enableViewport index false s)) = Ok b s' ->
      In e (effects s') -> In e (effects s) \/ routedViewport e <> Some r).
Proof.
  intros He.
  set (s1 := stateOf (enableViewport index false s)).
  assert (Hdis : enabled (heap s1 r) = false).
  { unfold s1, enableViewport. rewrite He. simpl. now rewrite store_same. }
  assert (Heff : effects s1 = effects s).
  { unfold s1, enableViewport. rewrite He. reflexivity. }
  assert (Hroute : forall (E' : Type) (H' : IManipBaseEvent E') (ev : E') (doPick : bool)
                          (ve : IBaseEvent E') (s' : State),
             routeEvent ev true doPick s1 = Ok (Some ve) s' -> viewport ve <> r).
  { intros E' H' ev doPick ve s' Hre Heq.
    destruct (resolveViewport s1 (localX ev) (localY ev) true) as [vp|] eqn:Hr.
    - destruct (routeEvent_some ev true doPick s1 vp Hr)
        as [(ve' & s'' & logs & Hre' & Hvp & _)|(_ & e & Hre')]; [|congruence].
      assert (ve' = ve) by congruence. subst ve'.
      unfold resolveViewport in Hr. apply hitTest_In in Hr.
      destruct Hr as (_ & Hen). congruence.
    - rewrite routeEvent_none in Hre by exact Hr. discriminate. }
  split; [apply Hroute|].
  intros ev b s' e Hon Hin. rewrite onTrigger_unfold in Hon.
  destruct (system s1) as [sys|]; [|injection Hon as <- <-; left; congruence].
  destruct (resolveViewport s1 (localX ev) (localY ev) true) as [vp|] eqn:Hr.
  - destruct (routeEvent_some ev true true s1 vp Hr)
      as [(ve & s'' & logs & Hre & Hvp & _ & _ & Hs'' & Hquiet & _)|(_ & e' & Hre)];
      rewrite Hre in Hon; [|discriminate].
    injection Hon as <- <-. simpl in Hin. subst s''. simpl in Hin.
    assert (Hne : viewport ve <> r) by (eapply Hroute; exact Hre).
    rewrite Heff in Hin.
    apply in_app_or in Hin. destruct Hin as [Hin|Hin].
    + apply in_app_or in Hin. destruct Hin as [Hin|Hin]; [now left|].
      right. rewrite Forall_forall in Hquiet. rewrite (Hquiet e Hin). discriminate.
    + right. destruct Hin as [<-|Hin]; [simpl; congruence|].
      destruct (systemOnTrigger sys ve); [destruct Hin|].
      destruct Hin as [<-|[]]. simpl; congruence.
  - rewrite routeEvent_none in Hon by exact Hr.
    injection Hon as <- <-. left; congruence.
Qed.

(** X8. Disabling a viewport and enabling it again is a round trip for a
    viewport that was enabled: the store is as before, and so is the view. *)
Theorem disable_then_enable_round_trip (index : Z) (r : ref) (s : State) :
  elementAt (viewports s) index = Some r ->
  enabled (heap s r) = true ->
  exists s1 s2 : State,
    enableViewport index false s = Ok tt s1 /\
    enableViewport index true s1 = Ok tt s2 /\
    (forall r' : ref, heap s2 r' = heap s r') /\
    viewports s2 = viewports s /\ selection s2 = selection s /\
    effects s2 = effects s.
Proof.
  intros He Hen. unfold enableViewport. rewrite He.
  do 2 eexists. split; [reflexivity|]. simpl. rewrite He.
  split; [reflexivity|]. simpl. repeat split.
  intros r'. unfold store. destruct (Nat.eqb_spec r' r) as [->|]; [|reflexivity].
  rewrite Nat.eqb_refl. simpl. rewrite <- Hen. destruct (heap s r); reflexivity.
Qed.

(** *** More on the routing *)

(** X9. When the pick finds an object that carries a component, the routed
    event has that object, its component and the component's node, the view
    remembers object and component as the active ones, and the console gets
    one line with the index and the component's type. *)
Theorem pick_resolves_object_and_component
  {E : Type} `{IManipBaseEvent E} (ev : E) (doHitTest : bool) (s : State)
  (sys : RenderSystem) (vp : ref) (index : Z) (obj : Object3D) (c : Component) :
  system s = Some sys ->
  resolves s (localX ev) (localY ev) doHitTest vp ->
  pickFinds s sys (localX ev) (localY ev) vp index obj ->
  userData_component obj = Some c ->
  exists (ve : IBaseEvent E) (s' : State),
    routeEvent ev doHitTest true s = Ok (Some ve) s' /\
    viewport ve = vp /\
    object3D ve = Some obj /\ component ve = Some c /\ ev_node ve = node c /\
    activeObject3D s' = Some obj /\ activeComponent s' = Some c /\
    effects s' = effects s ++ [ConsoleLogComponent index (type c)].
Proof.
  intros Hsys Hres (scene & camera & Hsc & Hcam & Hidx & Hnz & Hobj) Hc.
  apply resolveViewport_resolves in Hres.
  rewrite routeEvent_unfold, Hres, pick_unfold, Hsys, Hsc, Hcam.
  cbv zeta. rewrite Hidx. apply Z.eqb_neq in Hnz. rewrite Hnz, Hobj, Hc.
  do 2 eexists; split; [reflexivity|]. simpl. repeat split.
Qed.

(** X10. When the pick finds an object that carries no component, reading the
    component's type for the console line raises a [TypeError]: [routeEvent]
    returns nothing, the view keeps its earlier active viewport, object and
    component, and nothing is logged. [onPointer] and [onTrigger] pass on
    what [routeEvent] raises, without a delivery. *)
Theorem pick_of_object_without_component_raises
  {E : Type} `{IManipBaseEvent E} (ev : E) (doHitTest : bool) (s : State)
  (sys : RenderSystem) (vp : ref) (index : Z) (obj : Object3D) :
  system s = Some sys ->
  resolves s (localX ev) (localY ev) doHitTest vp ->
  pickFinds s sys (localX ev) (localY ev) vp index obj ->
  userData_component obj = None ->
  routeEvent ev doHitTest true s
  = Throw (TypeError "cannot read properties of undefined") s /\
  (forall (t : IManipTriggerEvent) (e : exn) (s1 : State),
      routeEvent t true true s = Throw e s1 -> onTrigger t s = Throw e s1) /\
  (forall (p : IManipPointerEvent) (e : exn) (s1 : State),
      routeEvent p (fst (pointerFlags p)) (snd (pointerFlags p)) s = Throw e s1 ->
      onPointer p s = Throw e s1).
Proof.
  intros Hsys Hres (scene & camera & Hsc & Hcam & Hidx & Hnz & Hobj) Hc.
  apply resolveViewport_resolves in Hres. apply Z.eqb_neq in Hnz.
  split; [|split].
  - rewrite routeEvent_unfold, Hres, pick_unfold, Hsys, Hsc, Hcam.
    cbv zeta. now rewrite Hidx, Hnz, Hobj, Hc.
  - intros t e s1 Hre. now rewrite onTrigger_unfold, Hsys, Hre.
  - intros p e s1 Hre. now rewrite onPointer_unfold, Hsys, Hre.
Qed.

(** X11. Every routed event [routeEvent] returns is the input event with the
    device coordinates its viewport computes from the local ones, with
    [stopPropagation] unset and with the node of its component (no node
    without component); and the view's active viewport, object and component
    are then exactly those of the event. The registry and the store are not
    written. *)
Theorem routed_event_mirrors_active_state
  {E : Type} `{IManipBaseEvent E} (ev : E) (doHitTest doPick : bool) (s s' : State)
  (ve : IBaseEvent E) :
  routeEvent ev doHitTest doPick s = Ok (Some ve) s' ->
  event ve = ev /\
  deviceX ve = getDeviceX (geometry (heap s (viewport ve))) (localX ev) /\
  deviceY ve = getDeviceY (geometry (heap s (viewport ve))) (localY ev) /\
  stopPropagation ve = false /\
  ev_node ve = match component ve with
               | Some c => node c
               | None => None
               end /\
  selection s' = (Some (viewport ve), object3D ve, component ve) /\
  viewports s' = viewports s /\ heap s' = heap s.
Proof.
  rewrite routeEvent_unfold.
  destruct (resolveViewport s (localX ev) (localY ev) doHitTest) as [vp|];
    [|discriminate].
  destruct doPick.
  - destruct (pick (augment s (localX ev) (localY ev) vp) s) as [r s1|e s1] eqn:Hp;
      [|discriminate].
    destruct (pick_frame _ _ _ _ Hp) as (logs & -> & _).
    intros [= <- <-]. simpl. repeat split.
  - intros [= <- <-]. simpl. repeat split.
Qed.

(** X12. A hover is routed with a fresh hit test but without a pick: the
    routed hover names the first enabled viewport under the pointer and
    carries the object and component of the last pick, whichever viewport
    that pick was made in. *)
Theorem hover_carries_the_last_pick (ev : IManipPointerEvent) (s : State)
  (sys : RenderSystem) (vp : ref) :
  p_type ev = Hover ->
  system s = Some sys ->
  firstContaining s (p_localX ev) (p_localY ev) vp ->
  exists (ve : IPointerEvent) (s' : State),
    onPointer ev s = Ok true s' /\
    effects s' = effects s ++ pointerDeliveries sys ve /\
    viewport ve = vp /\
    object3D ve = activeObject3D s /\
    component ve = activeComponent s /\
    selection s' = (Some vp, activeObject3D s, activeComponent s).
Proof.
  intros Ht Hsys Hf.
  assert (Hflags : pointerFlags ev = (true, false))
    by (unfold pointerFlags; now rewrite Ht).
  apply hitTest_firstContaining in Hf.
  rewrite onPointer_unfold, Hsys, Hflags. simpl fst. simpl snd.
  rewrite routeEvent_unfold. unfold resolveViewport. simpl localX. simpl localY.
  rewrite Hf.
  exists {| event := ev; viewport := vp;
            deviceX := getDeviceX (geometry (heap s vp)) (p_localX ev);
            deviceY := getDeviceY (geometry (heap s vp)) (p_localY ev);
            object3D := activeObject3D s; component := activeComponent s;
            ev_node := match activeComponent s with
                       | Some c => node c
                       | None => None
                       end;
            stopPropagation := false |}.
  eexists. split; [reflexivity|]. repeat split.
Qed.

(** X13. A call of [routeEvent] with both [doHitTest] and [doPick], as for a
    primary pointer-down and for every trigger event, does not read the
    active viewport, object or component: started with any other active
    triple it returns the same event and reaches the same state, or raises
    the same exception. *)
Theorem fresh_routing_ignores_the_selection
  {E : Type} `{IManipBaseEvent E} (ev : E) (s : State)
  (v : option ref) (o : option Object3D) (c : option Component) :
  match routeEvent ev true true s, routeEvent ev true true (setActive v o c s) with
  | Ok (Some ve) s1, Ok (Some ve') s1' => ve = ve' /\ s1 = s1'
  | Ok None s1, Ok None s1' => s1 = s /\ s1' = setActive v o c s
  | Throw e s1, Throw e' s1' => e = e' /\ s1 = s /\ s1' = setActive v o c s
  | _, _ => False
  end.
Proof.
  rewrite !routeEvent_unfold. unfold resolveViewport. simpl heap. simpl viewports.
  destruct (hitTest (heap s) (localX ev) (localY ev) (viewports s)) as [vp|];
    [|split; reflexivity].
  rewrite !pick_unfold. simpl system.
  destruct (system s) as [sys|]; [|repeat split].
  destruct (activeScene sys) as [scene|]; [|split; reflexivity].
  destruct (activeCamera sys) as [camera|]; [|split; reflexivity].
  cbv zeta. simpl picker.
  change (augment (setActive v o c s) (localX ev) (localY ev) vp)
    with (augment s (localX ev) (localY ev) vp).
  destruct (pickIndex (picker s) scene camera (augment s (localX ev) (localY ev) vp) =? 0)%Z;
    [split; reflexivity|].
  destruct (getObjectByIndex sys _) as [obj|]; [|split; reflexivity].
  destruct (userData_component obj); [split; reflexivity|repeat split].
Qed.

(** X14. [attach] passes the canvas size to every registered viewport and to
    the renderer and then registers the view with the render system. On a
    view without system the last step raises a [TypeError], after the
    viewports and the renderer have been given the size; [detach] on such a
    view raises at once and changes nothing. *)
Theorem attach_sets_sizes_before_it_registers (s : State) :
  (forall sys : RenderSystem,
      system s = Some sys ->
      exists s' : State,
        attach s = Ok tt s' /\
        effects s' =
        effects s ++
        [RendererSetSize (width (canvas s)) (height (canvas s)); SystemAttachView]) /\
  (system s = None ->
   exists (m : string) (s' : State),
     attach s = Throw (TypeError m) s' /\
     effects s' = effects s ++ [RendererSetSize (width (canvas s)) (height (canvas s))] /\
     detach s = Throw (TypeError m) s) /\
  heap (stateOf (attach s)) =
  resizeViewports (width (canvas s)) (height (canvas s)) (viewports s) (heap s) /\
  viewports (stateOf (attach s)) = viewports s /\
  selection (stateOf (attach s)) = selection s.
Proof.
  unfold attach, detach, bind, get, modify, emit, theSystem. simpl.
  destruct (system s) as [sys|]; simpl.
  - split; [|split; [discriminate|repeat split]].
    intros sys' _. eexists. split; [reflexivity|]. simpl. now rewrite <- app_assoc.
  - split; [discriminate|]. split; [|repeat split].
    intros _. do 2 eexists. repeat split.
Qed.

(** *** Gestures *)

Lemma followsGesture_flags (ev : IManipPointerEvent) :
  followsGesture ev = true -> pointerFlags ev = (false, false).
Proof.
  unfold followsGesture, pointerFlags. intros Hf.
  apply andb_true_iff in Hf. destruct Hf as (Hh & Hd).
  apply negb_true_iff in Hh. apply negb_true_iff in Hd. now rewrite Hh, Hd.
Qed.

Lemma follow_step (ev : IManipPointerEvent) (s : State) (sys : RenderSystem) (vp : ref) :
  followsGesture ev = true ->
  system s = Some sys ->
  activeViewport s = Some vp ->
  onPointer ev s
  = Ok true (setEffects (effects s ++ pointerDeliveries sys (carried s vp ev)) s).
Proof.
  intros Hf Hsys Hact.
  rewrite onPointer_unfold, Hsys, (followsGesture_flags ev Hf). simpl fst. simpl snd.
  rewrite routeEvent_unfold. unfold resolveViewport. rewrite Hact.
  unfold pointerDeliveries, carried. simpl.
  f_equal. destruct s; simpl in *. now rewrite Hact.
Qed.

(** X25. A pointer event that is neither a hover nor a primary pointer-down
    (a move, an up, the down of a second pointer) is never hit-tested or
    picked: with an active viewport it is routed to that viewport with the
    active object and component, whether or not the viewport contains the
    point or is still enabled, and the view's state is not written apart
    from the deliveries; without an active viewport it is dropped. *)
Theorem gesture_events_go_to_the_active_viewport
  (ev : IManipPointerEvent) (s : State) (sys : RenderSystem) :
  followsGesture ev = true ->
  system s = Some sys ->
  (forall vp : ref,
      activeViewport s = Some vp ->
      onPointer ev s
      = Ok true (setEffects (effects s ++ pointerDeliveries sys (carried s vp ev)) s)) /\
  (activeViewport s = None -> onPointer ev s = Ok false s).
Proof.
  intros Hf Hsys. split.
  - intros vp Hact. now apply follow_step.
  - intros Hact. rewrite onPointer_unfold, Hsys, (followsGesture_flags ev Hf).
    now rewrite routeEvent_none.
Qed.

(** X26. A whole gesture stays attached: once a viewport is active, every
    event of a run of moves, ups and secondary downs is delivered to the
    render system as a routed event for that viewport with the same object
    and component, in the order of the events, and the active selection is
    the same at the end. *)
Theorem gesture_stays_attached
  (evs : list IManipPointerEvent) (s : State) (sys : RenderSystem) (vp : ref) :
  forallb followsGesture evs = true ->
  system s = Some sys ->
  activeViewport s = Some vp ->
  systemPointerEvents (effects (processAll (map PointerInput evs) s))
  = systemPointerEvents (effects s) ++ map (carried s vp) evs /\
  selection (processAll (map PointerInput evs) s) = selection s /\
  viewports (processAll (map PointerInput evs) s) = viewports s /\
  heap (processAll (map PointerInput evs) s) = heap s.
Proof.
  revert s. induction evs as [|ev rest IH]; intros s Hall Hsys Hact; simpl.
  - rewrite app_nil_r. repeat split.
  - simpl in Hall. apply andb_true_iff in Hall. destruct Hall as (Hf & Hrest).
    rewrite (follow_step ev s sys vp Hf Hsys Hact). simpl stateOf.
    set (s1 := setEffects (effects s ++ pointerDeliveries sys (carried s vp ev)) s).
    destruct (IH s1 Hrest Hsys Hact) as (Heff & Hsel & Hv & Hh).
    rewrite Heff, Hsel, Hv, Hh. subst s1. simpl.
    rewrite systemPointerEvents_app, systemPointerEvents_deliveries, <- app_assoc.
    repeat split.
Qed.

(** *** Routing along runs of all the methods *)

Lemma grows_refl (s : State) : grows s s.
Proof.
  split; [exists []; split; [now rewrite app_nil_r|constructor]|].
  repeat split.
Qed.

Lemma grows_trans (s1 s2 s3 : State) : grows s1 s2 -> grows s2 s3 -> grows s1 s3.
Proof.
  intros ((n1 & He1 & Hq1) & Ha1 & Hv1 & Hn1 & Hen1)
         ((n2 & He2 & Hq2) & Ha2 & Hv2 & Hn2 & Hen2).
  split.
  - exists (n1 ++ n2). rewrite He2, He1, app_assoc. split; [reflexivity|].
    apply Forall_app; split; assumption.
  - split; [congruence|]. split; [congruence|]. split; [congruence|].
    intros r. now rewrite Hen2.
Qed.

(** A write to the view that leaves the trace, the active viewport, the
    registry and the enabled flags alone. *)
Lemma grows_frame (s s' : State) :
  effects s' = effects s ->
  activeViewport s' = activeViewport s ->
  viewports s' = viewports s ->
  nextRef s' = nextRef s ->
  (forall r : ref, enabled (heap s' r) = enabled (heap s r)) ->
  grows s s'.
Proof.
  intros He Ha Hv Hn Hen.
  split; [exists []; split; [now rewrite app_nil_r|constructor]|].
  split; [exact Ha|]. split; [exact Hv|]. split; [exact Hn|exact Hen].
Qed.

Lemma calm_ret {A : Type} (a : A) : calm (ret a).
Proof. intros s. apply grows_refl. Qed.

Lemma calm_get : calm get.
Proof. intros s. apply grows_refl. Qed.

Lemma calm_throw {A : Type} (e : exn) : calm (@throw State A e).
Proof. intros s. apply grows_refl. Qed.

Lemma calm_theSystem : calm theSystem.
Proof. intros s. unfold theSystem. destruct (system s); apply grows_refl. Qed.

Lemma calm_emit (e : Effect) : routedViewport e = None -> calm (emit e).
Proof.
  intros He s. simpl. split; [|repeat split].
  exists [e]. split; [reflexivity|]. constructor; [exact He|constructor].
Qed.

Lemma calm_modify (f : State -> State) : (forall s : State, grows s (f s)) -> calm (modify f).
Proof. intros Hf s. apply Hf. Qed.

Lemma calm_bind {A B : Type} (c : M State A) (k : A -> M State B) :
  calm c -> (forall a : A, calm (k a)) -> calm (bind c k).
Proof.
  intros Hc Hk s. specialize (Hc s). unfold bind.
  destruct (c s) as [a s1|e s1]; simpl in *.
  - eapply grows_trans; [exact Hc|apply Hk].
  - exact Hc.
Qed.

Ltac calm :=
  cbv zeta;
  repeat first
    [ apply calm_bind; [|intro]
    | apply calm_ret
    | apply calm_get
    | apply calm_theSystem
    | apply calm_throw
    | apply calm_emit; reflexivity
    | apply calm_modify; intros ?; apply grows_frame;
      try reflexivity; intros ?; first [reflexivity|apply resizeViewports_enabled]
    | match goal with
      | |- calm (match ?x with _ => _ end) => destruct x
      end
    | progress cbv zeta ].



















(** A view as its constructor leaves it satisfies what the run needs. *)
Lemma create_well_formed (sys : option RenderSystem) (pk : Picker) (cv : Canvas)
  (hp : ref -> Viewport) (next : ref) :
  registryOk (create sys pk cv hp next) /\ viewInv (create sys pk cv hp next).
Proof.
  split; [split; [intros r []|constructor]|exact I].
Qed.


End RenderViewFacts.

(** ** The properties on the demo view *)

Lemma demo_first_containing : firstContaining demo 60 5 1.
Proof.
  exists 1. split; [reflexivity|]. split; [reflexivity|].
  intros [|j] vp' Hj; [intros [= <-]; reflexivity|lia].
Defined.

Lemma pressed_none_containing : noneContaining pressed 60 60.
Proof.
  intros vp [<-|[<-|[<-|[]]]]; reflexivity.
Defined.

Lemma routeEvent_hit_test_first_witness :
  (exists (ve : ITriggerEvent) (s' : State),
      routeEvent (wheelAt 60 5) true false demo = Ok (Some ve) s' /\ viewport ve = 1) /\
  onTrigger (wheelAt 60 60) demo = Ok false demo.
Proof.
  destruct (routeEvent_hit_test_first (VC := rectangles) (wheelAt 60 5) false demo)
    as (_ & Hfirst & _ & Htrigger & _).
  split.
  - destruct (Hfirst 1 demo_first_containing) as [Hok|(Hpick & _)];
      [exact Hok|discriminate].
  - apply (Htrigger (wheelAt 60 60)).
    intros vp [<-|[<-|[<-|[]]]]; reflexivity.
Defined.

Lemma routed_viewport_is_registered_and_enabled_witness :
  (exists new : list Effect,
      effects (processAll demoInputs demo) = effects demo ++ new /\
      Forall (routedOk demo) new) /\
  viewports (processAll demoInputs demo) = viewports demo /\
  heap (processAll demoInputs demo) = heap demo /\
  forall i : Input,
    (if inputHitTest i
     then noneContaining (processAll demoInputs demo) (inputX i) (inputY i)
     else activeViewport (processAll demoInputs demo) = None) ->
    dispatch i (processAll demoInputs demo) = Ok false (processAll demoInputs demo).
Proof.
  apply (routed_viewport_is_registered_and_enabled (VC := rectangles) demoInputs demo).
  exact I.
Defined.

Lemma pick_index_zero_is_background_witness :
  exists (ve : IPointerEvent) (s' : State),
    routeEvent (pointerAt Down true 60 5) true true demo = Ok (Some ve) s' /\
    viewport ve = 1 /\
    object3D ve = None /\ component ve = None /\ ev_node ve = None /\
    activeObject3D s' = None /\ activeComponent s' = None.
Proof.
  apply (pick_index_zero_is_background (VC := rectangles)
           (pointerAt Down true 60 5) true demo demoSystem 1).
  - reflexivity.
  - exact demo_first_containing.
  - exists 0, 0. repeat split; reflexivity.
Defined.

Lemma pick_failure_clears_selection_witness :
  exists (ve : IPointerEvent) (s' : State),
    routeEvent (pointerAt Down true 25 5) true true demo = Ok (Some ve) s' /\
    viewport ve = 0 /\
    object3D ve = None /\ component ve = None /\ ev_node ve = None /\
    activeObject3D s' = None /\ activeComponent s' = None /\
    effects s' = effects demo.
Proof.
  apply (pick_failure_clears_selection (VC := rectangles)
           (pointerAt Down true 25 5) true demo demoSystem 0).
  - reflexivity.
  - exists 0. split; [reflexivity|]. split; [reflexivity|]. intros j vp' Hj; lia.
  - right; right. exists 0, 0. repeat split. vm_compute. discriminate.
Defined.


Lemma removeViewport_keeps_the_list_witness :
  removeViewport 1 demo = Ok tt demo /\
  viewports (stateOf (removeViewport 1 demo)) = viewports demo /\
  In 1 (viewports (stateOf (removeViewport 1 demo))).
Proof.
  apply (removeViewport_keeps_the_list (VC := rectangles) demo 1).
  simpl. auto.
Defined.

Example removeViewport_on_demo :
  removeViewport 7 demo = Throw (Error "viewport not found") demo /\
  viewports (stateOf (removeViewport 0 demo)) = [0; 1; 2] /\
  (exists m, enableViewport 3 true demo = Throw (TypeError m) demo).
Proof.
  split; [reflexivity|]. split; [reflexivity|]. eexists; reflexivity.
Qed.

Example dispatch_on_demo :
  exists ve : IPointerEvent,
    effects pressed = [ConsoleLogComponent 1 "Box"; SystemPointer ve; ViewportPointer 0 ve] /\
    viewport ve = 0 /\ object3D ve = Some box.
Proof.
  eexists. split; [reflexivity|]. split; reflexivity.
Qed.

(** The invariant of the routing is about events only: a viewport that is
    disabled during a gesture still receives the moves of that gesture. *)
Example disabled_during_gesture :
  exists (ve : IPointerEvent) (s' : State),
    routeEvent moveOutside false false (stateOf (enableViewport 0 false pressed))
    = Ok (Some ve) s' /\
    viewport ve = 0 /\ enabled (heap s' 0) = false.
Proof.
  do 2 eexists. split; [vm_compute; reflexivity|]. split; reflexivity.
Qed.

(** The pick raises when the picked object carries no component. *)
Example pick_without_component_raises :
  onPointer (pointerAt Down true 15 5) demo
  = Throw (TypeError "cannot read properties of undefined") demo.
Proof. reflexivity. Qed.

Lemma failed_hit_test_keeps_active_state_witness :
  routeEvent hoverOutside true false pressed = Ok None pressed /\
  (forall (E' : Type) (H' : IManipBaseEvent E') (ev' : E') (vp : ref),
      activeViewport pressed = Some vp ->
      exists (ve : IBaseEvent E') (s' : State),
        routeEvent ev' false false (stateOf (routeEvent hoverOutside true false pressed))
        = Ok (Some ve) s' /\
        viewport ve = vp /\
        object3D ve = activeObject3D pressed /\
        component ve = activeComponent pressed) /\
  (forall (E' : Type) (H' : IManipBaseEvent E') (ev' : E'),
      activeViewport pressed = None ->
      routeEvent ev' false false (stateOf (routeEvent hoverOutside true false pressed))
      = Ok None pressed).
Proof.
  apply (failed_hit_test_keeps_active_state (VC := rectangles) hoverOutside false pressed).
  exact pressed_none_containing.
Defined.

(** C9 fails on the demo view. After the press on the box the active
    viewport is 0. The hover outside all viewports is routed with a hit test
    that finds nothing: it is dropped, but the active viewport of the view is
    still 0, and the move that follows, routed without a hit test, produces
    a routed event for viewport 0 and is answered with [true]. *)
Lemma hit_test_miss_does_not_clear_active_viewport :
  activeViewport pressed = Some 0 /\
  noneContaining pressed 60 60 /\
  onPointer hoverOutside pressed = Ok false pressed /\
  activeViewport (stateOf (routeEvent hoverOutside true false pressed)) = Some 0 /\
  activeViewport (stateOf (routeEvent hoverOutside true false pressed)) <> None /\
  (exists (ve : IPointerEvent) (s' : State),
      routeEvent moveOutside false false (stateOf (routeEvent hoverOutside true false pressed))
      = Ok (Some ve) s' /\ viewport ve = 0) /\
  (exists s' : State,
      onPointer moveOutside (stateOf (onPointer hoverOutside pressed)) = Ok true s').
Proof.
  split; [reflexivity|]. split; [exact pressed_none_containing|].
  split; [reflexivity|]. split; [reflexivity|]. split; [discriminate|].
  split; [do 2 eexists; split; [vm_compute; reflexivity|reflexivity]|].
  eexists; vm_compute; reflexivity.
Qed.

(** ** The further properties on the demo view *)

Lemma render_without_scene_or_camera_witness :
  render demoIdle
  = Ok tt (setEffects (effects demoIdle ++ [ConsoleWarn "scene and/or camera missing"])
                      demoIdle) /\
  shouldResize (stateOf (render demoIdle)) = shouldResize demoIdle /\
  canvas (stateOf (render demoIdle)) = canvas demoIdle.
Proof.
  apply (render_without_scene_or_camera (VC := rectangles) demoIdle idleSystem).
  - reflexivity.
  - left. reflexivity.
Defined.

Lemma render_draws_enabled_viewports_witness :
  exists s' : State,
    render (stateOf (resize demo)) = Ok tt s' /\
    effects s' =
    effects demo ++
    [RendererSetSize (clientWidth (canvas demo)) (clientHeight (canvas demo))] ++
    RendererClear :: renderTrace demo 0 0 /\
    viewports s' = viewports demo /\
    (forall r : ref, enabled (heap s' r) = enabled (heap demo r)) /\
    selection s' = selection demo /\
    heap s' =
    resizeViewports (clientWidth (canvas demo)) (clientHeight (canvas demo))
      (viewports demo) (heap demo) /\
    (shouldResize (stateOf (resize demo)) = true ->
     NoDup (viewports demo) ->
     forall r : ref,
       In r (viewports demo) ->
       geometry (heap s' r) =
       setCanvasSize (clientWidth (canvas demo)) (clientHeight (canvas demo))
                     (geometry (heap demo r))).
Proof.
  apply (render_draws_enabled_viewports (VC := rectangles)
           (stateOf (resize demo)) demoSystem 0 0);
    reflexivity.
Defined.

(** The disabled viewport 2 is not drawn. *)
Example render_trace_on_demo :
  renderTrace demo 0 0 = renderSteps 0 0 0 ++ renderSteps 0 0 1.
Proof. reflexivity. Qed.

Lemma demo_NoDup : NoDup (viewports demo).
Proof.
  repeat constructor; simpl; intuition discriminate.
Defined.

Lemma demo_registryOk : registryOk demo.
Proof.
  split; [|exact demo_NoDup].
  intros r [<-|[<-|[<-|[]]]]; simpl; lia.
Defined.

Lemma resize_is_applied_by_the_next_render_witness :
  heap (stateOf (resize demo)) = heap demo /\
  canvas (stateOf (resize demo)) = canvas demo /\
  exists s1 s2 : State,
    render (stateOf (resize demo)) = Ok tt s1 /\
    shouldResize s1 = false /\
    width (canvas s1) = clientWidth (canvas demo) /\
    height (canvas s1) = clientHeight (canvas demo) /\
    (forall r : ref,
        In r (viewports demo) ->
        geometry (heap s1 r) =
        setCanvasSize (clientWidth (canvas demo)) (clientHeight (canvas demo))
                      (geometry (heap demo r))) /\
    (forall r : ref, ~ In r (viewports demo) -> heap s1 r = heap demo r) /\
    render s1 = Ok tt s2 /\
    canvas s2 = canvas s1 /\ heap s2 = heap s1.
Proof.
  apply (resize_is_applied_by_the_next_render (VC := rectangles) demo demoSystem 0 0);
    try reflexivity.
  exact demo_NoDup.
Defined.

Lemma registry_only_grows_witness :
  registryOk (performAll demoCalls demo) /\
  prefixOf (viewports demo) (viewports (performAll demoCalls demo)) /\
  List.length (viewports demo) <= List.length (viewports (performAll demoCalls demo)).
Proof.
  apply (registry_only_grows (VC := rectangles) demoCalls demo).
  exact demo_registryOk.
Defined.

Example registry_after_demo_calls :
  viewports (performAll demoCalls demo) = [0; 1; 2; 3; 4; 5].
Proof. reflexivity. Qed.

Lemma disabled_viewport_is_never_hit_witness :
  (forall (ev : IManipPointerEvent) (doPick : bool) (ve : IPointerEvent) (s' : State),
      routeEvent ev true doPick (stateOf (enableViewport 0 false demo)) = Ok (Some ve) s' ->
      viewport ve <> 0) /\
  (forall (ev : IManipTriggerEvent) (b : bool) (s' : State) (e : Effect),
      onTrigger ev (stateOf (enableViewport 0 false demo)) = Ok b s' ->
      In e (effects s') -> In e (effects demo) \/ routedViewport e <> Some 0).
Proof.
  apply (disabled_viewport_is_never_hit (VC := rectangles) 0 0 demo).
  reflexivity.
Defined.

Lemma disable_then_enable_round_trip_witness :
  exists s1 s2 : State,
    enableViewport 1 false demo = Ok tt s1 /\
    enableViewport 1 true s1 = Ok tt s2 /\
    (forall r' : ref, heap s2 r' = heap demo r') /\
    viewports s2 = viewports demo /\ selection s2 = selection demo /\
    effects s2 = effects demo.
Proof.
  apply (disable_then_enable_round_trip (VC := rectangles) 1 1 demo); reflexivity.
Defined.

Lemma demo_resolves_press : resolves demo 5 5 true 0.
Proof.
  exists 0. split; [reflexivity|]. split; [reflexivity|]. intros j vp' Hj; lia.
Defined.

Lemma pick_resolves_object_and_component_witness :
  exists (ve : IPointerEvent) (s' : State),
    routeEvent pressBox true true demo = Ok (Some ve) s' /\
    viewport ve = 0 /\
    object3D ve = Some box /\ component ve = Some boxComponent /\
    ev_node ve = node boxComponent /\
    activeObject3D s' = Some box /\ activeComponent s' = Some boxComponent /\
    effects s' = effects demo ++ [ConsoleLogComponent 1 (type boxComponent)].
Proof.
  apply (pick_resolves_object_and_component (VC := rectangles)
           pressBox true demo demoSystem 0 1 box boxComponent).
  - reflexivity.
  - exact demo_resolves_press.
  - exists 0, 0. repeat split. discriminate.
  - reflexivity.
Defined.

Lemma pick_of_object_without_component_raises_witness :
  routeEvent (pointerAt Down true 15 5) true true demo
  = Throw (TypeError "cannot read properties of undefined") demo /\
  (forall (t : IManipTriggerEvent) (e : exn) (s1 : State),
      routeEvent t true true demo = Throw e s1 -> onTrigger t demo = Throw e s1) /\
  (forall (p : IManipPointerEvent) (e : exn) (s1 : State),
      routeEvent p (fst (pointerFlags p)) (snd (pointerFlags p)) demo = Throw e s1 ->
      onPointer p demo = Throw e s1).
Proof.
  apply (pick_of_object_without_component_raises (VC := rectangles)
           (pointerAt Down true 15 5) true demo demoSystem 0 2 helper).
  - reflexivity.
  - exists 0. split; [reflexivity|]. split; [reflexivity|]. intros j vp' Hj; lia.
  - exists 0, 0. repeat split. discriminate.
  - reflexivity.
Defined.

Lemma routed_event_mirrors_active_state_witness :
  exists (ve : IPointerEvent) (s' : State),
    routeEvent pressBox true true demo = Ok (Some ve) s' /\
    event ve = pressBox /\
    deviceX ve = getDeviceX (geometry (heap demo (viewport ve))) (localX pressBox) /\
    deviceY ve = getDeviceY (geometry (heap demo (viewport ve))) (localY pressBox) /\
    stopPropagation ve = false /\
    ev_node ve = match component ve with
                 | Some c => node c
                 | None => None
                 end /\
    selection s' = (Some (viewport ve), object3D ve, component ve) /\
    viewports s' = viewports demo /\ heap s' = heap demo.
Proof.
  do 2 eexists. split; [vm_compute; reflexivity|].
  apply (routed_event_mirrors_active_state (VC := rectangles) pressBox true true demo).
  vm_compute. reflexivity.
Defined.

Lemma hover_carries_the_last_pick_witness :
  exists (ve : IPointerEvent) (s' : State),
    onPointer hoverRight pressed = Ok true s' /\
    effects s' = effects pressed ++ pointerDeliveries demoSystem ve /\
    viewport ve = 1 /\
    object3D ve = activeObject3D pressed /\
    component ve = activeComponent pressed /\
    selection s' = (Some 1, activeObject3D pressed, activeComponent pressed).
Proof.
  apply (hover_carries_the_last_pick (VC := rectangles) hoverRight pressed demoSystem 1).
  - reflexivity.
  - reflexivity.
  - exists 1. split; [reflexivity|]. split; [reflexivity|].
    intros [|j] vp' Hj; [intros [= <-]; reflexivity|lia].
Defined.

(** The box picked in viewport 0 travels with the hover into viewport 1. *)
Example hover_right_carries_the_box :
  activeViewport (stateOf (onPointer hoverRight pressed)) = Some 1 /\
  activeObject3D (stateOf (onPointer hoverRight pressed)) = Some box.
Proof. split; reflexivity. Qed.

Lemma gesture_events_go_to_the_active_viewport_witness :
  (forall vp : ref,
      activeViewport pressed = Some vp ->
      onPointer moveOutside pressed
      = Ok true (setEffects (effects pressed ++
                             pointerDeliveries demoSystem (carried pressed vp moveOutside))
                            pressed)) /\
  (activeViewport pressed = None -> onPointer moveOutside pressed = Ok false pressed).
Proof.
  apply (gesture_events_go_to_the_active_viewport (VC := rectangles)
           moveOutside pressed demoSystem); reflexivity.
Defined.

Lemma gesture_stays_attached_witness :
  systemPointerEvents
    (effects (processAll (map PointerInput [moveOutside; pointerAt Down false 70 70;
                                            pointerAt Up true 5 5]) pressed))
  = systemPointerEvents (effects pressed) ++
    map (carried pressed 0) [moveOutside; pointerAt Down false 70 70; pointerAt Up true 5 5] /\
  selection (processAll (map PointerInput [moveOutside; pointerAt Down false 70 70;
                                           pointerAt Up true 5 5]) pressed)
  = selection pressed /\
  viewports (processAll (map PointerInput [moveOutside; pointerAt Down false 70 70;
                                           pointerAt Up true 5 5]) pressed)
  = viewports pressed /\
  heap (processAll (map PointerInput [moveOutside; pointerAt Down false 70 70;
                                      pointerAt Up true 5 5]) pressed)
  = heap pressed.
Proof.
  apply (gesture_stays_attached (VC := rectangles)
           [moveOutside; pointerAt Down false 70 70; pointerAt Up true 5 5]
           pressed demoSystem 0); reflexivity.
Defined.

(** ** Events mixed with the other methods, on the demo view *)



(** * Properties of the camera controller *)

Section FloatOrder.

Local Open Scope float_scope.

Lemma SFcompare_antisym (a b : spec_float) :
  SFcompare b a = match SFcompare a b with
                  | Some c => Some (CompOpp c)
                  | None => None
                  end.
Proof.
  destruct a as [sa|sa| |sa ma ea], b as [sb|sb| |sb mb eb]; simpl;
    try reflexivity; try (destruct sa; reflexivity); try (destruct sb; reflexivity);
    try (destruct sa, sb; reflexivity).
  destruct sa, sb; try reflexivity;
    rewrite (Z.compare_antisym ea eb); destruct (ea ?= eb)%Z; simpl; try reflexivity;
    pose proof (Pos.compare_cont_antisym ma mb Eq) as Hm; simpl in Hm; rewrite <- Hm;
    destruct (Pos.compare_cont Eq ma mb); reflexivity.
Qed.

Lemma SFcompare_refl (a : spec_float) :
  a <> S754_nan -> SFcompare a a = Some Eq.
Proof.
  destruct a as [sa|sa| |sa ma ea]; simpl; intros Hn;
    try reflexivity; try (destruct sa; reflexivity); [congruence|].
  destruct sa; rewrite Z.compare_refl, Pos.compare_cont_refl; reflexivity.
Qed.

Lemma SFcompare_none (a b : spec_float) :
  SFcompare a b = None -> a = S754_nan \/ b = S754_nan.
Proof.
  destruct a as [sa|sa| |sa ma ea], b as [sb|sb| |sb mb eb]; simpl;
    auto; discriminate.
Qed.

Lemma is_nan_false (v : float) : is_nan v = false <-> Prim2SF v <> S754_nan.
Proof.
  unfold is_nan. rewrite FloatAxioms.eqb_spec. unfold SFeqb. split.
  - intros H Hn. rewrite Hn in H. discriminate.
  - intros Hn. now rewrite (SFcompare_refl _ Hn).
Qed.

Lemma leb_numbers (a b : float) :
  (a <=? b) = true -> is_nan a = false /\ is_nan b = false.
Proof.
  rewrite FloatAxioms.leb_spec, !is_nan_false. unfold SFleb.
  destruct (Prim2SF a), (Prim2SF b); simpl; try discriminate;
    intros _; split; discriminate.
Qed.

Lemma leb_refl (a : float) : is_nan a = false -> (a <=? a) = true.
Proof.
  rewrite FloatAxioms.leb_spec, is_nan_false. unfold SFleb. intros Hn.
  now rewrite (SFcompare_refl _ Hn).
Qed.

Lemma ltb_false_leb (a b : float) :
  is_nan a = false -> is_nan b = false -> (a <? b) = false -> (b <=? a) = true.
Proof.
  rewrite FloatAxioms.ltb_spec, FloatAxioms.leb_spec, !is_nan_false. unfold SFltb, SFleb.
  intros Ha Hb. rewrite (SFcompare_antisym (Prim2SF a) (Prim2SF b)).
  destruct (SFcompare (Prim2SF a) (Prim2SF b)) as [[| |]|] eqn:Hc;
    simpl; try reflexivity; try discriminate.
  destruct (SFcompare_none _ _ Hc); contradiction.
Qed.

Lemma ltb_nan_l (a b : float) : is_nan a = true -> (a <? b) = false.
Proof.
  intros Ha. rewrite FloatAxioms.ltb_spec. unfold SFltb.
  destruct (Prim2SF a) eqn:Hsa; try reflexivity;
    exfalso; assert (Hn : is_nan a = false)
      by (apply is_nan_false; rewrite Hsa; discriminate); congruence.
Qed.

Lemma ltb_nan_r (a b : float) : is_nan b = true -> (a <? b) = false.
Proof.
  intros Hb. rewrite FloatAxioms.ltb_spec. unfold SFltb.
  destruct (Prim2SF b) eqn:Hsb;
    try (exfalso; assert (Hn : is_nan b = false)
           by (apply is_nan_false; rewrite Hsb; discriminate); congruence).
  destruct (Prim2SF a); reflexivity.
Qed.

End FloatOrder.

Import CameraController.

Section CameraControllerFacts.

Local Open Scope float_scope.

(** The modelled [limit] returns its first argument or one of the bounds. *)
Lemma limit_cases (v lo hi : float) :
  limit v lo hi = v \/ limit v lo hi = lo \/ limit v lo hi = hi.
Proof.
  unfold limit. destruct (v <? lo); auto. destruct (hi <? v); auto.
Qed.

(** It hands NaN on. *)
Lemma limit_nan (v lo hi : float) : is_nan v = true -> limit v lo hi = v.
Proof.
  intros Hv. unfold limit. now rewrite (ltb_nan_l v lo Hv), (ltb_nan_r hi v Hv).
Qed.

(** Between ordered bounds, a result that is a number lies within them. *)
Lemma limit_within (v lo hi : float) :
  (lo <=? hi) = true ->
  is_nan (limit v lo hi) = false ->
  within (limit v lo hi) lo hi = true.
Proof.
  intros Hord. destruct (leb_numbers lo hi Hord) as (Hlo & Hhi).
  unfold limit, within.
  destruct (v <? lo) eqn:Hvlo.
  - intros _. now rewrite (leb_refl lo Hlo), Hord.
  - destruct (hi <? v) eqn:Hhiv.
    + intros _. now rewrite Hord, (leb_refl hi Hhi).
    + intros Hv.
      now rewrite (ltb_false_leb v lo Hv Hlo Hvlo), (ltb_false_leb hi v Hhi Hv Hhiv).
Qed.

Lemma numbersWithinLimits_pose (s s' : State) :
  pose s' = pose s -> numbersWithinLimits s -> numbersWithinLimits s'.
Proof.
  unfold pose, numbersWithinLimits. intros [= -> -> -> -> -> ->]. auto.
Qed.

Lemma numbersWithinLimits_ext (s s' : State) :
  orbit s' = orbit s -> offset s' = offset s ->
  minOrbit s' = minOrbit s -> maxOrbit s' = maxOrbit s ->
  minOffset s' = minOffset s -> maxOffset s' = maxOffset s ->
  numbersWithinLimits s -> numbersWithinLimits s'.
Proof.
  intros Ho Hf H1 H2 H3 H4. apply numbersWithinLimits_pose.
  unfold pose. congruence.
Qed.

(** The input handlers only write the phase, the mode and the deltas. *)
Lemma onTrigger_pose (ev : ITriggerEvent) (s : State) :
  pose (snd (onTrigger ev s)) = pose s.
Proof.
  unfold onTrigger. destruct (String.eqb (t_type ev) "wheel"); reflexivity.
Qed.

Lemma onPointer_pose (ev : IPointerEvent) (s : State) :
  pose (stateOf (onPointer ev s)) = pose s.
Proof.
  unfold onPointer. cbv zeta.
  destruct (isPrimary ev);
    destruct (String.eqb (type ev) "pointer-down");
    destruct (String.eqb (type ev) "pointer-up");
    try reflexivity;
    destruct (pointerCount ev =? 2)%Z; try reflexivity;
    destruct (activePositions ev) as [|p0 [|p1 rest]]; reflexivity.
Qed.

Lemma updatePose_numbers (dX dY dScale dPitch dHead dRoll : float) (s : State) :
  orientationEnabled s = true ->
  offsetEnabled s = true ->
  orderedLimits s ->
  numbersWithinLimits (updatePose dX dY dScale dPitch dHead dRoll s).
Proof.
  intros Hor Hoff Hord a. unfold updatePose. rewrite Hor, Hoff.
  destruct (Hord a) as (Ho & Hf).
  destruct a; simpl in *; split; apply limit_within; assumption.
Qed.

Lemma updateByMode_numbers (s : State) :
  orientationEnabled s = true ->
  offsetEnabled s = true ->
  orderedLimits s ->
  numbersWithinLimits s ->
  numbersWithinLimits (updateByMode s).
Proof.
  intros Hor Hoff Hord Hin. unfold updateByMode.
  destruct (mode s) as [[| | | | | |]|]; auto using updatePose_numbers.
Qed.

Lemma update_numbers (s : State) :
  orientationEnabled s = true ->
  offsetEnabled s = true ->
  orderedLimits s ->
  numbersWithinLimits s ->
  numbersWithinLimits (snd (update s)).
Proof.
  intros Hor Hoff Hord Hin. unfold update.
  destruct (isPhase (phase s) PhaseOff && (deltaWheel s =? 0)); [exact Hin|].
  destruct (negb (deltaWheel s =? 0)).
  { simpl. eapply numbersWithinLimits_ext;
      [| | | | | |apply (updatePose_numbers 0 0 (deltaWheel s * 0.07 + 1) 0 0 0 s);
                  assumption]; reflexivity. }
  destruct (isPhase (phase s) Active).
  { destruct ((deltaX s =? 0) && (deltaY s =? 0) && (deltaPinch s =? 1));
      [exact Hin|].
    simpl. eapply numbersWithinLimits_ext;
      [| | | | | |apply (updateByMode_numbers s); assumption]; reflexivity. }
  destruct (isPhase (phase s) Release); [|exact Hin].
  set (s1 := setDeltas (deltaX s * 0.85) (deltaY s * 0.85) 1 (deltaWheel s) s).
  assert (H1 : numbersWithinLimits (updateByMode s1))
    by (apply updateByMode_numbers; assumption).
  destruct (abs (deltaX (updateByMode s1)) + abs (deltaY (updateByMode s1)) <? 0.1);
    [|exact H1].
  simpl. eapply numbersWithinLimits_ext; [| | | | | |exact H1]; reflexivity.
Qed.

(** C10, as the code has it. With both switches set and every lower limit at
    most its upper limit, after [updatePose], whatever the deltas, each
    component of [orbit] and of [offset] that is a number lies within its
    limits; a component that is NaN is handed on by [limit]. [update], and
    with it every pointer- and wheel-driven change of the pose, keeps this,
    and the two input handlers do not touch the pose. *)
Theorem updatePose_keeps_numbers_within_limits
  (dX dY dScale dPitch dHead dRoll : float) (s : State) :
  orientationEnabled s = true ->
  offsetEnabled s = true ->
  orderedLimits s ->
  numbersWithinLimits (updatePose dX dY dScale dPitch dHead dRoll s) /\
  (numbersWithinLimits s -> numbersWithinLimits (snd (update s))) /\
  (forall ev : ITriggerEvent,
      numbersWithinLimits s -> numbersWithinLimits (snd (onTrigger ev s))) /\
  (forall ev : IPointerEvent,
      numbersWithinLimits s -> numbersWithinLimits (stateOf (onPointer ev s))).
Proof.
  intros Hor Hoff Hord. split; [|split; [|split]].
  - now apply updatePose_numbers.
  - now apply update_numbers.
  - intros ev Hin. eapply numbersWithinLimits_pose; [apply onTrigger_pose|exact Hin].
  - intros ev Hin. eapply numbersWithinLimits_pose; [apply onPointer_pose|exact Hin].
Qed.

End CameraControllerFacts.

(** ** The properties on the controller as it is constructed *)

Lemma initial_orderedLimits : orderedLimits initial.
Proof. intros a; destruct a; split; reflexivity. Defined.

Lemma initial_numbersWithinLimits : numbersWithinLimits initial.
Proof. intros a; destruct a; split; intros _; reflexivity. Defined.

Lemma updatePose_keeps_numbers_within_limits_witness :
  numbersWithinLimits (updatePose 10 20 1.5 400 (-700) 3 initial) /\
  (numbersWithinLimits initial -> numbersWithinLimits (snd (update initial))) /\
  (forall ev : ITriggerEvent,
      numbersWithinLimits initial -> numbersWithinLimits (snd (onTrigger ev initial))) /\
  (forall ev : IPointerEvent,
      numbersWithinLimits initial ->
      numbersWithinLimits (stateOf (onPointer ev initial))).
Proof.
  apply (updatePose_keeps_numbers_within_limits 10 20 1.5 400 (-700) 3 initial).
  - reflexivity.
  - reflexivity.
  - exact initial_orderedLimits.
Defined.

(** A large orbit gesture on the fresh controller: the pitch stops at its
    limit of -90 degrees. *)
Example updatePose_clamps_pitch :
  orbit (updatePose 10 20 1.5 400 (-700) 3 initial) = {| x := -90; y := 2100; z := -9 |}
  /\ allWithinLimits (updatePose 10 20 1.5 400 (-700) 3 initial).
Proof.
  split; [reflexivity|]. intros a; destruct a; split; reflexivity.
Qed.

(** C10 fails for a delta that is NaN, and without one as soon as the
    viewport height is 0: on the fresh controller [updatePose] with the
    pitch delta NaN leaves NaN in [orbit.x], which is not within [-90, 90];
    and after one notch of the wheel on a viewport of height 0, [update]
    computes 0 / 0 for every component it moves. *)
Lemma updatePose_nan_escapes_the_limits :
  orientationEnabled initial = true /\
  offsetEnabled initial = true /\
  is_nan (x (orbit (updatePose 0 0 1 nan 0 0 initial))) = true /\
  within (x (orbit (updatePose 0 0 1 nan 0 0 initial)))
         (x (minOrbit initial)) (x (maxOrbit initial)) = false /\
  ~ allWithinLimits (updatePose 0 0 1 nan 0 0 initial) /\
  fst (update flat) = true /\
  is_nan (x (offset (snd (update flat)))) = true /\
  ~ allWithinLimits (snd (update flat)).
Proof.
  repeat split; try reflexivity.
  - intros Hall. destruct (Hall X) as (Ho & _). vm_compute in Ho. discriminate.
  - intros Hall. destruct (Hall X) as (_ & Hf). vm_compute in Hf. discriminate.
Qed.

(** ** Runs of the controller *)

Section CameraControllerMore.

Local Open Scope float_scope.

Lemma updatePose_settings (dX dY dScale dPitch dHead dRoll : float) (s : State) :
  settings (updatePose dX dY dScale dPitch dHead dRoll s) = settings s /\
  manip (updatePose dX dY dScale dPitch dHead dRoll s) = manip s /\
  viewportSize (updatePose dX dY dScale dPitch dHead dRoll s) = viewportSize s.
Proof. repeat split. Qed.

Lemma updateByMode_settings (s : State) :
  settings (updateByMode s) = settings s /\
  manip (updateByMode s) = manip s /\
  viewportSize (updateByMode s) = viewportSize s.
Proof.
  unfold updateByMode. destruct (mode s) as [[| | | | | |]|]; repeat split.
Qed.

Lemma update_settings (s : State) :
  settings (snd (update s)) = settings s /\
  viewportSize (snd (update s)) = viewportSize s.
Proof.
  unfold update.
  destruct (isPhase (phase s) PhaseOff && (deltaWheel s =? 0)); [split; reflexivity|].
  destruct (negb (deltaWheel s =? 0)); [split; reflexivity|].
  destruct (isPhase (phase s) Active).
  { destruct ((deltaX s =? 0) && (deltaY s =? 0) && (deltaPinch s =? 1));
      [split; reflexivity|].
    destruct (updateByMode_settings s) as (Hs & _ & Hv). simpl. split; assumption. }
  destruct (isPhase (phase s) Release); [|split; reflexivity].
  set (s1 := setDeltas (deltaX s * 0.85) (deltaY s * 0.85) 1 (deltaWheel s) s).
  destruct (updateByMode_settings s1) as (Hs & _ & Hv).
  destruct (abs (deltaX (updateByMode s1)) + abs (deltaY (updateByMode s1)) <? 0.1);
    simpl; split; assumption.
Qed.

Lemma call_settings (c : Call) (s : State) : settings (call c s) = settings s.
Proof.
  destruct c as [ev|ev| |w h]; simpl.
  - pose proof (onPointer_pose ev s) as Hp.
    unfold onPointer in *. cbv zeta in *.
    destruct (isPrimary ev);
      destruct (String.eqb (type ev) "pointer-down");
      destruct (String.eqb (type ev) "pointer-up");
      try reflexivity;
      destruct (pointerCount ev =? 2)%Z; try reflexivity;
      destruct (activePositions ev) as [|p0 [|p1 rest]]; reflexivity.
  - unfold onTrigger. destruct (String.eqb (t_type ev) "wheel"); reflexivity.
  - apply update_settings.
  - reflexivity.
Qed.

Lemma settings_ordered (s s' : State) :
  settings s' = settings s ->
  (orderedLimits s -> orderedLimits s') /\
  (orientationEnabled s = true -> orientationEnabled s' = true) /\
  (offsetEnabled s = true -> offsetEnabled s' = true).
Proof.
  unfold settings, orderedLimits. intros [= -> -> -> -> -> ->]. auto.
Qed.

Lemma call_numbers (c : Call) (s : State) :
  orientationEnabled s = true ->
  offsetEnabled s = true ->
  orderedLimits s ->
  numbersWithinLimits s ->
  numbersWithinLimits (call c s).
Proof.
  intros Hor Hoff Hord Hin. destruct c as [ev|ev| |w h]; simpl.
  - eapply numbersWithinLimits_pose; [apply onPointer_pose|exact Hin].
  - eapply numbersWithinLimits_pose; [apply onTrigger_pose|exact Hin].
  - now apply update_numbers.
  - eapply numbersWithinLimits_pose; [|exact Hin]. reflexivity.
Qed.

(** X15. No method of the controller that the input layer or the frame loop
    calls writes the limits or the two switches. So along any run of pointer
    events, trigger events, updates and viewport size changes that starts
    with both switches set, ordered limits and the numeric components of
    orbit and offset within them, all of this still holds at the end. *)
Theorem run_keeps_limits_and_numbers_within (cs : list Call) (s : State) :
  orientationEnabled s = true ->
  offsetEnabled s = true ->
  orderedLimits s ->
  numbersWithinLimits s ->
  settings (run cs s) = settings s /\
  orderedLimits (run cs s) /\
  numbersWithinLimits (run cs s).
Proof.
  revert s. induction cs as [|c rest IH]; intros s Hor Hoff Hord Hin; simpl.
  - split; [reflexivity|split; assumption].
  - pose proof (call_settings c s) as Hset.
    destruct (settings_ordered s (call c s) Hset) as (Ho & Hor' & Hoff').
    destruct (IH (call c s) (Hor' Hor) (Hoff' Hoff) (Ho Hord)
                 (call_numbers c s Hor Hoff Hord Hin)) as (Hs & Hord' & Hin').
    split; [congruence|]. split; assumption.
Qed.

(** X16. A trigger event other than a wheel event is refused: [false], and
    the controller is as before. A wheel event adds the wheel value limited
    to [-1, 1] to the pending wheel delta, so one event moves it by at most
    one notch, and writes nothing else: pose, mode, phase, the other pending
    deltas, the last pinch distance, the viewport size and the settings are
    as before. *)
Theorem wheel_adds_one_notch_at_most (ev : ITriggerEvent) (s : State) :
  (String.eqb (t_type ev) "wheel" = false -> onTrigger ev s = (false, s)) /\
  (String.eqb (t_type ev) "wheel" = true ->
   fst (onTrigger ev s) = true /\
   deltaWheel (snd (onTrigger ev s)) = deltaWheel s + limit (wheel ev) (-1) 1 /\
   (is_nan (wheel ev) = false -> within (limit (wheel ev) (-1) 1) (-1) 1 = true) /\
   pose (snd (onTrigger ev s)) = pose s /\
   (mode (snd (onTrigger ev s)), phase (snd (onTrigger ev s))) = (mode s, phase s) /\
   (deltaX (snd (onTrigger ev s)), deltaY (snd (onTrigger ev s)),
    deltaPinch (snd (onTrigger ev s))) = (deltaX s, deltaY s, deltaPinch s) /\
   prevPinchDist (snd (onTrigger ev s)) = prevPinchDist s /\
   viewportSize (snd (onTrigger ev s)) = viewportSize s /\
   settings (snd (onTrigger ev s)) = settings s).
Proof.
  unfold onTrigger. split; intros ->; [reflexivity|]. simpl.
  repeat split.
  intros Hnum. apply limit_within; [reflexivity|].
  destruct (limit_cases (wheel ev) (-1) 1) as [-> |[-> | ->]];
    [exact Hnum|reflexivity|reflexivity].
Qed.

(** X17. [update] answers [false] only when it has changed nothing, and then
    no wheel delta is pending. *)
Theorem update_false_means_unchanged (s : State) :
  fst (update s) = false ->
  snd (update s) = s /\ (deltaWheel s =? 0) = true.
Proof.
  unfold update.
  destruct (isPhase (phase s) PhaseOff) eqn:Hoff;
    destruct (deltaWheel s =? 0) eqn:Hw; simpl; try discriminate; auto.
  destruct (isPhase (phase s) Active).
  - destruct ((deltaX s =? 0) && (deltaY s =? 0) && (deltaPinch s =? 1));
      simpl; [auto|discriminate].
  - destruct (isPhase (phase s) Release); simpl; [|auto].
    destruct (abs _ + abs _ <? 0.1); simpl; discriminate.
Qed.

(** X18. After [update] no wheel delta is pending. A pending wheel delta has
    priority over the pointer: [update] then answers [true], applies only
    the dolly of the wheel, and leaves mode, phase and the pointer deltas
    for the next update. *)
Theorem update_consumes_the_wheel_first (s : State) :
  (deltaWheel (snd (update s)) =? 0) = true /\
  ((deltaWheel s =? 0) = false ->
   fst (update s) = true /\
   pose (snd (update s)) = pose (updatePose 0 0 (deltaWheel s * 0.07 + 1) 0 0 0 s) /\
   (mode (snd (update s)), phase (snd (update s))) = (mode s, phase s) /\
   (deltaX (snd (update s)), deltaY (snd (update s)), deltaPinch (snd (update s)))
   = (deltaX s, deltaY s, deltaPinch s)).
Proof.
  unfold update.
  destruct (deltaWheel s =? 0) eqn:Hw.
  - split; [|discriminate].
    destruct (isPhase (phase s) PhaseOff); simpl; [exact Hw|].
    destruct (isPhase (phase s) Active).
    + destruct ((deltaX s =? 0) && (deltaY s =? 0) && (deltaPinch s =? 1));
        simpl; [exact Hw|].
      destruct (updateByMode_settings s) as (_ & Hm & _).
      unfold manip in Hm. injection Hm as _ _ _ _ _ Hdw _. now rewrite Hdw.
    + destruct (isPhase (phase s) Release); simpl; [|exact Hw].
      set (s1 := setDeltas (deltaX s * 0.85) (deltaY s * 0.85) 1 (deltaWheel s) s).
      destruct (updateByMode_settings s1) as (_ & Hm & _).
      unfold manip in Hm. injection Hm as _ _ _ _ _ Hdw _.
      destruct (abs _ + abs _ <? 0.1); simpl; rewrite Hdw; exact Hw.
  - rewrite andb_false_r. simpl. split; [reflexivity|]. intros _. repeat split.
Qed.

(** X19. In the active phase the pointer deltas are applied once: after an
    [update] with no wheel delta pending, the next [update] answers [false]
    and changes nothing, until a new input arrives. *)
Theorem active_deltas_are_applied_once (s : State) :
  phase s = Active ->
  (deltaWheel s =? 0) = true ->
  update (snd (update s)) = (false, snd (update s)).
Proof.
  intros Hph Hw.
  assert (Hidle : forall s', phase s' = Active -> (deltaWheel s' =? 0) = true ->
                             (deltaX s' =? 0) = true -> (deltaY s' =? 0) = true ->
                             (deltaPinch s' =? 1) = true ->
                             update s' = (false, s')).
  { intros s' Hp' Hw' Hx Hy Hpi. unfold update. now rewrite Hp', Hw', Hx, Hy, Hpi. }
  assert (Hu : update s =
               if (deltaX s =? 0) && (deltaY s =? 0) && (deltaPinch s =? 1)
               then (false, s)
               else (true, setDeltas 0 0 1 (deltaWheel (updateByMode s)) (updateByMode s)))
    by (unfold update; rewrite Hph, Hw; reflexivity).
  rewrite Hu.
  destruct ((deltaX s =? 0) && (deltaY s =? 0) && (deltaPinch s =? 1)) eqn:Hz; simpl.
  - apply andb_true_iff in Hz. destruct Hz as (Hz & Hpi).
    apply andb_true_iff in Hz. destruct Hz as (Hx & Hy). now apply Hidle.
  - destruct (updateByMode_settings s) as (_ & Hm & _).
    unfold manip in Hm. injection Hm as _ Hp' _ _ _ Hdw _.
    apply Hidle; simpl; try reflexivity; congruence.
Qed.

(** [updatePose] writes orbit and offset only, and only the one whose
    switch is set: with [orientationEnabled] unset the orbit is as before,
    with [offsetEnabled] unset the offset, whatever the deltas; limits,
    switches, mode, phase, deltas and viewport size are never written. *)
Theorem updatePose_respects_the_switches
  (dX dY dScale dPitch dHead dRoll : float) (s : State) :
  (orientationEnabled s = false ->
   orbit (updatePose dX dY dScale dPitch dHead dRoll s) = orbit s) /\
  (offsetEnabled s = false ->
   offset (updatePose dX dY dScale dPitch dHead dRoll s) = offset s) /\
  settings (updatePose dX dY dScale dPitch dHead dRoll s) = settings s /\
  manip (updatePose dX dY dScale dPitch dHead dRoll s) = manip s /\
  viewportSize (updatePose dX dY dScale dPitch dHead dRoll s) = viewportSize s.
Proof.
  unfold updatePose. repeat split; intros ->; reflexivity.
Qed.

(** X20. [getModeFromEvent] finds no mode (JavaScript's [undefined]) exactly
    for a mouse button other than 0, 1 and 2 and for a source other than
    mouse and touch; it never yields [Off] or [Zoom]. For these three values
    of the mode [updateByMode] leaves the controller as it is, so a gesture
    that began with such a pointer-down moves nothing. *)
Theorem no_mode_means_no_motion (ev : IPointerEvent) :
  (getModeFromEvent ev = None <->
   (source ev = "mouse"%string /\
    button ev <> 0%Z /\ button ev <> 1%Z /\ button ev <> 2%Z) \/
   (source ev <> "mouse"%string /\ source ev <> "touch"%string)) /\
  getModeFromEvent ev <> Some Off /\
  getModeFromEvent ev <> Some Zoom /\
  forall s : State,
    mode s = None \/ mode s = Some Off \/ mode s = Some Zoom ->
    updateByMode s = s.
Proof.
  split; [|split; [|split]].
  - unfold getModeFromEvent.
    destruct (String.eqb_spec (source ev) "mouse") as [Hm|Hm].
    + destruct (Z.eqb_spec (button ev) 0) as [H0|H0].
      { split; [destruct (ctrlKey ev), (altKey ev); discriminate|].
        intros [(_ & Hb & _)|(Hs & _)]; contradiction. }
      destruct (Z.eqb_spec (button ev) 2) as [H2|H2].
      { split; [destruct (altKey ev); discriminate|].
        intros [(_ & _ & _ & Hb)|(Hs & _)]; contradiction. }
      destruct (Z.eqb_spec (button ev) 1) as [H1|H1].
      { split; [discriminate|].
        intros [(_ & _ & Hb & _)|(Hs & _)]; contradiction. }
      split; [intros _; left; auto|reflexivity].
    + destruct (String.eqb_spec (source ev) "touch") as [Ht|Ht].
      { split.
        - destruct (pointerCount ev =? 1)%Z; [|destruct (pointerCount ev =? 2)%Z];
            discriminate.
        - intros [(Hs & _)|(_ & Hs)]; contradiction. }
      split; [intros _; right; auto|reflexivity].
  - unfold getModeFromEvent.
    repeat match goal with
           | |- context [if ?b then _ else _] => destruct b
           end; discriminate.
  - unfold getModeFromEvent.
    repeat match goal with
           | |- context [if ?b then _ else _] => destruct b
           end; discriminate.
  - intros s [Hmo|[Hmo|Hmo]]; unfold updateByMode; now rewrite Hmo.
Qed.

(** X21. A primary pointer-up ends the gesture at once: [onPointer] answers
    [true] and sets the phase to release, and the movement of that event is
    not added to the pending deltas; mode, pinch state and pose stay as they
    are. *)
Theorem primary_pointer_up_drops_its_movement (ev : IPointerEvent) (s : State) :
  isPrimary ev = true ->
  type ev = "pointer-up"%string ->
  onPointer ev s = Ok true (setPhase Release s) /\
  phase (stateOf (onPointer ev s)) = Release /\
  (deltaX (stateOf (onPointer ev s)), deltaY (stateOf (onPointer ev s)))
  = (deltaX s, deltaY s) /\
  (mode (stateOf (onPointer ev s)), deltaPinch (stateOf (onPointer ev s)),
   prevPinchDist (stateOf (onPointer ev s)))
  = (mode s, deltaPinch s, prevPinchDist s) /\
  pose (stateOf (onPointer ev s)) = pose s.
Proof.
  intros Hp Ht.
  assert (Hr : onPointer ev s = Ok true (setPhase Release s))
    by (unfold onPointer; rewrite Hp, Ht; reflexivity).
  rewrite Hr. repeat split.
Qed.

(** X22. An event that reports two pointers but fewer than two active
    positions makes [onPointer] raise a [TypeError] when it reads the second
    position, unless it is a primary pointer-up, for which [onPointer]
    returns before it reads the positions. By then the event has been taken
    into account: its movement is in the pending deltas, and a pointer-down
    has set phase and mode. *)
Theorem pinch_without_positions_raises (ev : IPointerEvent) (s : State) :
  pointerCount ev = 2%Z ->
  List.length (activePositions ev) < 2 ->
  isPrimary ev && String.eqb (type ev) "pointer-up"
    && negb (String.eqb (type ev) "pointer-down") = false ->
  exists (m : string) (s' : State),
    onPointer ev s = Throw (TypeError m) s' /\
    deltaX s' = deltaX s + movementX ev * 1 /\
    deltaY s' = deltaY s + movementY ev * 1 /\
    (String.eqb (type ev) "pointer-down" = true ->
     mode s' = getModeFromEvent ev /\
     (isPrimary ev = true -> phase s' = Active)) /\
    pose s' = pose s.
Proof.
  intros Hc Hlen Hup. unfold onPointer. cbv zeta. rewrite Hc. simpl Z.eqb.
  assert (Hpos : match activePositions ev with
                 | _ :: _ :: _ => False
                 | _ => True
                 end).
  { destruct (activePositions ev) as [|p0 [|p1 rest]]; simpl in *; auto; lia. }
  destruct (isPrimary ev);
    destruct (String.eqb (type ev) "pointer-down");
    destruct (String.eqb (type ev) "pointer-up");
    try discriminate;
    destruct (activePositions ev) as [|p0 [|p1 rest]]; try contradiction;
    do 2 eexists; (split; [reflexivity|]); simpl; repeat split; discriminate.
Qed.

End CameraControllerMore.

(** ** The further properties on the controller as it is constructed *)

Lemma run_keeps_limits_and_numbers_within_witness :
  settings (run demoRun initial) = settings initial /\
  orderedLimits (run demoRun initial) /\
  numbersWithinLimits (run demoRun initial).
Proof.
  apply (run_keeps_limits_and_numbers_within demoRun initial).
  - reflexivity.
  - reflexivity.
  - exact initial_orderedLimits.
  - exact initial_numbersWithinLimits.
Defined.

(** The drag turns the camera by 12 and -36 degrees; the movement that
    arrived with the broken pinch stays pending, as the controller is off. *)
Example pose_after_demo_run :
  x (orbit (run [CallPointer leftDown; CallPointer leftMove; CallUpdate] initial))
  = 12%float /\
  y (orbit (run [CallPointer leftDown; CallPointer leftMove; CallUpdate] initial))
  = (-36)%float /\
  orbit (run demoRun initial)
  = orbit (run [CallPointer leftDown; CallPointer leftMove; CallUpdate] initial) /\
  phase (run demoRun initial) = PhaseOff /\
  deltaX (run demoRun initial) = 5%float.
Proof. repeat split. Qed.

Lemma update_false_means_unchanged_witness :
  snd (update initial) = initial /\ (deltaWheel initial =? 0)%float = true.
Proof.
  apply (update_false_means_unchanged initial). reflexivity.
Defined.

Lemma active_deltas_are_applied_once_witness :
  update (snd (update dragging)) = (false, snd (update dragging)).
Proof.
  apply (active_deltas_are_applied_once dragging); reflexivity.
Defined.

Example dragging_update_is_applied :
  fst (update dragging) = true /\ orbit (snd (update dragging)) <> orbit dragging.
Proof. split; [reflexivity|]. vm_compute. discriminate. Qed.

Lemma primary_pointer_up_drops_its_movement_witness :
  onPointer leftUp dragging = Ok true (setPhase Release dragging) /\
  phase (stateOf (onPointer leftUp dragging)) = Release /\
  (deltaX (stateOf (onPointer leftUp dragging)), deltaY (stateOf (onPointer leftUp dragging)))
  = (deltaX dragging, deltaY dragging) /\
  (mode (stateOf (onPointer leftUp dragging)),
   deltaPinch (stateOf (onPointer leftUp dragging)),
   prevPinchDist (stateOf (onPointer leftUp dragging)))
  = (mode dragging, deltaPinch dragging, prevPinchDist dragging) /\
  pose (stateOf (onPointer leftUp dragging)) = pose dragging.
Proof.
  apply (primary_pointer_up_drops_its_movement leftUp dragging); reflexivity.
Defined.

Lemma pinch_without_positions_raises_witness :
  exists (m : string) (s' : State),
    onPointer brokenPinch dragging = Throw (TypeError m) s' /\
    deltaX s' = (deltaX dragging + movementX brokenPinch * 1)%float /\
    deltaY s' = (deltaY dragging + movementY brokenPinch * 1)%float /\
    (String.eqb (type brokenPinch) "pointer-down" = true ->
     mode s' = getModeFromEvent brokenPinch /\
     (isPrimary brokenPinch = true -> phase s' = Active)) /\
    pose s' = pose dragging.
Proof.
  apply (pinch_without_positions_raises brokenPinch dragging).
  - reflexivity.
  - simpl. lia.
  - reflexivity.
Defined.

Example pen_finds_no_mode :
  getModeFromEvent penDown = None /\
  mode (stateOf (onPointer penDown initial)) = None /\
  pose (run [CallPointer penDown; CallPointer leftMove; CallUpdate] initial) = pose initial.
Proof. repeat split. Qed.

(** * Properties of the sprite group *)

Import HTMLSpriteGroup.

Section SpriteGroupFacts.

Lemma setSprites_spec (v : bool) (l : list ref) (sp : ref -> HTMLSprite) (r : ref) :
  (In r l -> visible (fold_left (fun sp' r' => setSpriteVisible v r' sp') l sp r) = v) /\
  (~ In r l -> fold_left (fun sp' r' => setSpriteVisible v r' sp') l sp r = sp r) /\
  htmlElement (fold_left (fun sp' r' => setSpriteVisible v r' sp') l sp r)
  = htmlElement (sp r).
Proof.
  revert sp. induction l as [|a rest IH]; intros sp; simpl.
  - repeat split; auto. intros [].
  - destruct (IH (setSpriteVisible v a sp)) as (Hin & Hout & Hel).
    assert (Ha : forall r', (r' = a -> visible (setSpriteVisible v a sp r') = v) /\
                            (r' <> a -> setSpriteVisible v a sp r' = sp r') /\
                            htmlElement (setSpriteVisible v a sp r') = htmlElement (sp r')).
    { intros r'. unfold setSpriteVisible.
      destruct (Nat.eqb_spec r' a) as [->|Hne]; repeat split; auto; contradiction. }
    destruct (Ha r) as (Hsame & Hother & Hela).
    split; [|split].
    + intros [->|Hr]; [|now apply Hin].
      destruct (in_dec Nat.eq_dec r rest) as [Hr|Hr]; [now apply Hin|].
      rewrite (Hout Hr). now apply Hsame.
    + intros Hnot. rewrite Hout by (intros Hr; apply Hnot; now right).
      apply Hother. intros ->. apply Hnot; now left.
    + now rewrite Hel.
Qed.

(** X23. The setter of [visible] reaches the children only when the value
    changes: then every child gets the new value; when the value is the one
    the group already has, nothing is written, so a child that was hidden or
    shown on its own keeps its flag. Sprites outside the group and the
    sprites' elements are never touched, and setting the same value twice is
    the same as setting it once. *)
Theorem setVisible_reaches_children_on_change (v : bool) (s : State) :
  getVisible (setVisible v s) = v /\
  (v = _visible s -> setVisible v s = s) /\
  (v <> _visible s ->
   forall r : ref, In r (children s) -> visible (sprites (setVisible v s) r) = v) /\
  (forall r : ref, ~ In r (children s) -> sprites (setVisible v s) r = sprites s r) /\
  (forall r : ref,
      htmlElement (sprites (setVisible v s) r) = htmlElement (sprites s r)) /\
  children (setVisible v s) = children s /\
  effects (setVisible v s) = effects s /\
  setVisible v (setVisible v s) = setVisible v s.
Proof.
  unfold setVisible, getVisible.
  destruct (Bool.eqb v (_visible s)) eqn:Heq.
  - apply Bool.eqb_prop in Heq. rewrite Heq.
    repeat split; auto; try contradiction.
    now rewrite Bool.eqb_reflx.
  - apply Bool.eqb_false_iff in Heq. simpl.
    split; [reflexivity|]. split; [contradiction|].
    split; [intros _ r Hin; now apply setSprites_spec|].
    split; [intros r Hnot; now apply setSprites_spec|].
    split; [intros r; apply setSprites_spec|].
    split; [reflexivity|]. split; [reflexivity|].
    now rewrite Bool.eqb_reflx.
Qed.

Lemma rendered_app (l1 l2 : list Effect) :
  rendered (l1 ++ l2) = rendered l1 ++ rendered l2.
Proof.
  induction l1 as [|e l1 IH]; simpl; [reflexivity|].
  destruct e; simpl; rewrite IH; reflexivity.
Qed.

Lemma rendered_childCalls (container : Container) (camera : Camera)
  (sp : ref -> HTMLSprite) (cs : list ref) :
  rendered (flat_map (childCalls container camera sp) cs)
  = filter (fun r => match htmlElement (sp r) container with
                     | Some _ => true
                     | None => false
                     end) cs.
Proof.
  induction cs as [|r rest IH]; simpl; [reflexivity|].
  rewrite rendered_app, IH.
  destruct (htmlElement (sp r) container); reflexivity.
Qed.

(** The loop adds the calls for each child, in order, and writes nothing
    but the trace. *)
Lemma renderChildren_spec (container : Container) (camera : Camera) (cs : list ref)
  (s : State) :
  effects (renderChildren container camera cs s)
  = effects s ++ flat_map (childCalls container camera (sprites s)) cs /\
  _visible (renderChildren container camera cs s) = _visible s /\
  children (renderChildren container camera cs s) = children s /\
  sprites (renderChildren container camera cs s) = sprites s.
Proof.
  revert s. induction cs as [|child rest IH]; intros s; simpl.
  - rewrite app_nil_r. repeat split.
  - destruct (IH (renderChild container camera child s)) as (He & Hv & Hc & Hs).
    assert (Hstep : effects (renderChild container camera child s)
                    = effects s ++ childCalls container camera (sprites s) child /\
                    _visible (renderChild container camera child s) = _visible s /\
                    children (renderChild container camera child s) = children s /\
                    sprites (renderChild container camera child s) = sprites s).
    { unfold renderChild, childCalls. simpl.
      destruct (htmlElement (sprites s child) container); simpl;
        rewrite <- ?app_assoc; repeat split. }
    destruct Hstep as (He1 & Hv1 & Hc1 & Hs1).
    rewrite He, Hv, Hc, Hs, He1, Hv1, Hc1, Hs1, <- app_assoc. repeat split.
Qed.

(** X24. [render] does nothing at all while the group is hidden, whatever
    the flags of its children, so hiding the group with the setter stops
    the rendering. While the group is shown, [render] makes these calls and
    no others: for every child, in the order of the children, one
    [getHTMLElement] with the container, followed, exactly when that gave an
    element, by one [renderHTMLElement] of the same child with that element,
    the container and the camera. So the children drawn are exactly those
    with an element. [render] writes no flag, no child list and no sprite. *)
Theorem render_draws_children_with_an_element
  (container : Container) (camera : Camera) (s : State) :
  (getVisible s = false -> render container camera s = s) /\
  effects (render container camera (setVisible false s)) = effects s /\
  (getVisible s = true ->
   effects (render container camera s) =
   effects s ++ flat_map (childCalls container camera (sprites s)) (children s)) /\
  (getVisible s = true ->
   rendered (effects (render container camera s)) =
   rendered (effects s) ++
   filter (fun r => match htmlElement (sprites s r) container with
                    | Some _ => true
                    | None => false
                    end) (children s)) /\
  _visible (render container camera s) = _visible s /\
  children (render container camera s) = children s /\
  sprites (render container camera s) = sprites s.
Proof.
  destruct (renderChildren_spec container camera (children s) s) as (He & Hv & Hc & Hs).
  split; [|split; [|split; [|split]]].
  - unfold render. intros ->. reflexivity.
  - unfold render, setVisible, getVisible.
    destruct (_visible s) eqn:Hvis; simpl; [reflexivity|]. now rewrite Hvis.
  - unfold render. intros ->. exact He.
  - unfold render. intros ->. simpl.
    rewrite He, rendered_app. f_equal. apply rendered_childCalls.
  - unfold render. destruct (negb (getVisible s)); [repeat split|].
    split; [exact Hv|]. split; [exact Hc|exact Hs].
Qed.

End SpriteGroupFacts.

Lemma render_draws_children_with_an_element_witness :
  effects (render 3 4 demoGroup)
  = [SpriteGetHTMLElement 0 3; SpriteRenderHTMLElement 0 10 3 4;
     SpriteGetHTMLElement 1 3; SpriteRenderHTMLElement 1 11 3 4;
     SpriteGetHTMLElement 2 3].
Proof.
  destruct (render_draws_children_with_an_element 3 4 demoGroup) as (_ & _ & Hcalls & _).
  exact (Hcalls eq_refl).
Defined.

(** A child hidden on its own stays hidden when the shown group is shown
    again, and is drawn all the same; the child without element is not. *)
Example sprite_group_demo :
  visible (sprites (setVisible true demoGroup) 1) = false /\
  visible (sprites (setVisible true (setVisible false demoGroup)) 1) = true /\
  rendered (effects (render 0 0 demoGroup)) = [0; 1] /\
  effects (render 0 0 (setVisible false demoGroup)) = [].
Proof. repeat split. Qed.
